(** * Sui Move CI/CD workflow generator: a shallow embedding

    The repository holds two versions of [generate_ci.py]:

      - [src/generate_ci.py] builds a workflow with one job,
        [build-and-deploy] (module [Single] below);
      - [sui-cicd-design/src/generate_ci.py] builds a workflow with the four
        jobs [build], [test], [security] and [deploy] (module [Staged]).

    The class [SuiCIGenerator] ([__init__], [detect_project_structure],
    [save_workflow]) and the function [main] are the same text in both
    files; they are embedded once, [main] over the [generate_workflow] of the
    version at hand.

    Python values are embedded as the inductive [pyval], Python [str] as the
    list of its code points, the file system as a tree of directories and
    files, and the functions that touch it as state-passing functions over
    [world] that return either a value or the exception raised. *)

From Stdlib Require Import List String Ascii Bool Arith NArith ZArith Lia.
From Stdlib Require Import DecimalString.
Import ListNotations.

Set Implicit Arguments.
Unset Strict Implicit.
Set Warnings "-register-all".

Open Scope string_scope.
Open Scope list_scope.

(** ** Python strings *)

(** A Python [str] is a sequence of code points. *)
Definition pystr : Type := list N.

(** The source files are UTF-8 (Python's default source encoding): a
    literal of the source is written here as the same bytes inside a Rocq
    string, and [u] decodes them into code points as the Python parser
    does. *)
Definition cont (c : ascii) : N := N_of_ascii c mod 64.

Fixpoint u (s : string) : pystr :=
  match s with
  | EmptyString => []
  | String c0 r0 =>
      let b0 := N_of_ascii c0 in
      if (b0 <? 128)%N then b0 :: u r0
      else if (b0 <? 224)%N then
        match r0 with
        | String c1 r1 => ((b0 mod 32) * 64 + cont c1)%N :: u r1
        | EmptyString => [b0]
        end
      else if (b0 <? 240)%N then
        match r0 with
        | String c1 (String c2 r2) =>
            ((b0 mod 16) * 4096 + cont c1 * 64 + cont c2)%N :: u r2
        | _ => [b0]
        end
      else
        match r0 with
        | String c1 (String c2 (String c3 r3)) =>
            ((b0 mod 8) * 262144 + cont c1 * 4096 + cont c2 * 64 + cont c3)%N
              :: u r3
        | _ => [b0]
        end
  end.

Definition E : string := EmptyString.
Definition dq : string := String (ascii_of_nat 34) EmptyString.
Definition nl : string := String (ascii_of_nat 10) EmptyString.

(** [D [a; b; c]] is the text [a"b"c]: the pieces of a source line between
    its double quotes. *)
Definition D (pieces : list string) : string := String.concat dq pieces.

(** [unlines ls] is the multi-line literal whose lines are [ls]. *)
Definition unlines (ls : list string) : pystr := u (String.concat nl ls).

Definition pystr_eqb (a b : pystr) : bool :=
  if list_eq_dec N.eq_dec a b then true else false.

Lemma pystr_eqb_eq (a b : pystr) : pystr_eqb a b = true <-> a = b.
Proof.
  unfold pystr_eqb. destruct (list_eq_dec N.eq_dec a b); split; congruence.
Qed.

Lemma pystr_eqb_refl (a : pystr) : pystr_eqb a a = true.
Proof. now apply pystr_eqb_eq. Qed.

(** ** Python values *)

(** The hashable scalars, which are what a key of a dict of this program can
    be: the keys the program writes are [str]; a key that comes out of
    [config.update] on a parsed JSON document can also be [None], a [bool]
    or an [int].  (JSON numbers with a fraction or an exponent are Python
    floats and are outside this model.) *)
Inductive pykey : Type :=
| KNone
| KBool (b : bool)
| KInt (z : Z)
| KStr (s : pystr).

(** A dict is the list of its items in insertion order. *)
Inductive pyval : Type :=
| PNone
| PBool (b : bool)
| PInt (z : Z)
| PStr (s : pystr)
| PList (items : list pyval)
| PDict (items : list (pykey * pyval)).

Definition pydict : Type := list (pykey * pyval).

(** Python's [==] on keys: [True == 1] and [False == 0]. *)
Definition key_num (k : pykey) : option Z :=
  match k with
  | KBool b => Some (if b then 1 else 0)%Z
  | KInt z => Some z
  | _ => None
  end.

Definition key_eqb (a b : pykey) : bool :=
  match a, b with
  | KNone, KNone => true
  | KStr s, KStr t => pystr_eqb s t
  | _, _ =>
      match key_num a, key_num b with
      | Some x, Some y => Z.eqb x y
      | _, _ => false
      end
  end.

(** [d[k]] / [d.get(k)] *)
Fixpoint dict_get (d : pydict) (k : pykey) : option pyval :=
  match d with
  | [] => None
  | (k', v) :: rest => if key_eqb k' k then Some v else dict_get rest k
  end.

(** [d[k] = v]: an existing key keeps its place (and its key object), a new
    key goes to the end. *)
Fixpoint dict_set (d : pydict) (k : pykey) (v : pyval) : pydict :=
  match d with
  | [] => [(k, v)]
  | (k', v') :: rest =>
      if key_eqb k' k then (k', v) :: rest else (k', v') :: dict_set rest k v
  end.

(** [d.update(other)] for a dict [other]: its items are set in order. *)
Definition dict_update (d other : pydict) : pydict :=
  fold_left (fun acc kv => dict_set acc (fst kv) (snd kv)) other d.

(** A dict display [{k1: v1, ...}] with [str] keys: the items are set from
    left to right. *)
Definition dict (items : list (string * pyval)) : pyval :=
  PDict (fold_left (fun acc kv => dict_set acc (KStr (u (fst kv))) (snd kv))
           items []).

Definition str (s : string) : pyval := PStr (u s).

(** [v[k]] for a value [v] that is a dict and a [str] key [k]. *)
Definition item (v : pyval) (k : string) : option pyval :=
  match v with
  | PDict d => dict_get d (KStr (u k))
  | _ => None
  end.

(** [list(v.keys())] *)
Definition keys (v : pyval) : option (list pykey) :=
  match v with
  | PDict d => Some (map fst d)
  | _ => None
  end.

(** The keys of a dict are pairwise different under [==], as in every dict
    Python builds. *)
Fixpoint dict_wf (d : pydict) : bool :=
  match d with
  | [] => true
  | (k, _) :: rest =>
      negb (existsb (fun kv => key_eqb (fst kv) k) rest) && dict_wf rest
  end.

(** ** Results and exceptions *)

(** The exception classes this program can raise.  [ValueError] stands for
    its subclasses too ([json.JSONDecodeError], [UnicodeDecodeError],
    [UnicodeEncodeError]). *)
Inductive exn : Type :=
| TypeError
| ValueError
| FileNotFoundError
| NotADirectoryError
| IsADirectoryError
| FileExistsError
| OSError.      (* an [OSError] of no subclass: here [ENAMETOOLONG] *)

Inductive result (A : Type) : Type :=
| Ok (a : A)
| Raise (e : exn).
Arguments Ok {A} a.
Arguments Raise {A} e.

(** ** [pathlib] paths *)

(** The root of a path: none, [/] or [//].  ([splitroot] keeps a root of
    exactly two slashes apart; Linux reads it as [/].) *)
Inductive Anchor : Type := Relative | Slash | DoubleSlash.

(** A [PosixPath] after [parse_parts]: its root and its components, which
    are never empty nor ["."]. *)
Record Path : Type := mkPath { anchor : Anchor; parts : list pystr }.

Definition absolute (p : Path) : bool :=
  match anchor p with Relative => false | Slash | DoubleSlash => true end.

Definition slash : N := 47.

Fixpoint split_on (sep : N) (s : pystr) : list pystr :=
  match s with
  | [] => [[]]
  | c :: r =>
      if (c =? sep)%N then [] :: split_on sep r
      else match split_on sep r with
           | x :: xs => (c :: x) :: xs
           | [] => [[c]]
           end
  end.

Definition is_component (x : pystr) : bool :=
  negb (pystr_eqb x [] || pystr_eqb x (u ".")).

(** The text without its leading slashes, and their number. *)
Fixpoint lstrip_slash (s : pystr) : N * pystr :=
  match s with
  | c :: r => if (c =? slash)%N
              then let '(n, t) := lstrip_slash r in ((n + 1)%N, t)
              else (0%N, s)
  | [] => (0%N, [])
  end.

(** [Path(s)] *)
Definition Path_of (s : pystr) : Path :=
  {| anchor := match fst (lstrip_slash s) with
               | 0%N => Relative
               | 2%N => DoubleSlash
               | _ => Slash
               end;
     parts := filter is_component (split_on slash s) |}.

(** [p / s] *)
Definition Path_div (p : Path) (s : string) : Path :=
  let q := Path_of (u s) in
  if absolute q then q
  else {| anchor := anchor p; parts := parts p ++ parts q |}.

Declare Scope path_scope.
Delimit Scope path_scope with path.
Infix "//" := Path_div (at level 40, left associativity) : path_scope.

(** ** The generator object *)

Record SuiCIGenerator : Type := mkGenerator {
  config : pydict;
  project_root : Path;
  workflow_dir : Path
}.

(** [SuiCIGenerator(config)]: [Path(x)] raises [TypeError] unless [x] is a
    [str] (no other value of this model is path-like). *)
Definition __init__ (config : pydict) : result SuiCIGenerator :=
  match (match dict_get config (KStr (u "project_root")) with
         | Some v => v
         | None => str "."
         end) with
  | PStr s =>
      let project_root := Path_of s in
      Ok {| config := config;
            project_root := project_root;
            workflow_dir := (project_root // ".github" // "workflows")%path |}
  | _ => Raise TypeError
  end.

(** ** The command texts *)

(** The multi-line [run] literals of the two files, each with the places
    where it occurs.  A backslash at the end of a source line continues the
    line: Python drops it together with the line break. *)
Module Script.

(** [generate_env_setup] in [src/generate_ci.py], lines 44-70;
    [generate_build_job] in [sui-cicd-design/src/generate_ci.py], lines 36-62;
    [generate_test_job] in [sui-cicd-design/src/generate_ci.py], lines 92-118. *)
Definition install_homebrew_and_sui : pystr :=
  unlines [
    E;
    "                        # Install Homebrew";
    D ["                        /bin/bash -c ";
       "$(curl -fsSL https://raw.githubusercontent.com/Homebrew/install/HEAD/install.sh)"; E];
    "                        ";
    "                        # Add brew to PATH for this step and future steps";
    D ["                        echo "; "/home/linuxbrew/.linuxbrew/bin"; " >> $GITHUB_PATH"];
    D ["                        echo "; "/home/linuxbrew/.linuxbrew/sbin"; " >> $GITHUB_PATH"];
    "                        ";
    "                        # Set environment variables for this workflow";
    D ["                        echo "; "HOMEBREW_PREFIX=/home/linuxbrew/.linuxbrew"; " >> $GITHUB_ENV"];
    D ["                        echo "; "HOMEBREW_CELLAR=/home/linuxbrew/.linuxbrew/Cellar";
       " >> $GITHUB_ENV"];
    D ["                        echo ";
       "HOMEBREW_REPOSITORY=/home/linuxbrew/.linuxbrew/Homebrew"; " >> $GITHUB_ENV"];
    "                        ";
    "                        # Source brew environment for this step";
    D ["                        eval "; "$(/home/linuxbrew/.linuxbrew/bin/brew shellenv)"; E];
    "                        ";
    "                        # Install dependencies";
    "                        sudo apt-get update";
    "                        sudo apt-get install -y build-essential";
    "                        brew install gcc";
    "                        ";
    "                        # Install Sui";
    "                        brew install sui";
    "                        ";
    "                        # Verify Sui installation";
    "                        sui --version";
    "                    "].

(** [generate_env_setup] in [src/generate_ci.py], lines 74-81;
    [generate_build_job] in [sui-cicd-design/src/generate_ci.py], lines 66-73. *)
Definition build_move_modules : pystr :=
  unlines [
    E;
    "                        # Verify sui command is available";
    D ["                        which sui || (echo "; "Sui command not found in PATH"; " && exit 1)"];
    "                        sui --version";
    "                        ";
    "                        # Build the project";
    "                        sui move build";
    "                    "].

(** [generate_env_setup] in [src/generate_ci.py], lines 87-93;
    [generate_test_job] in [sui-cicd-design/src/generate_ci.py], lines 122-128. *)
Definition run_move_tests : pystr :=
  unlines [
    E;
    "                        # Verify sui command is available";
    D ["                        which sui || (echo "; "Sui command not found in PATH"; " && exit 1)"];
    "                        ";
    "                        # Run tests";
    "                        sui move test";
    "                    "].

(** [generate_security_job] in [sui-cicd-design/src/generate_ci.py], lines
    147-173; [generate_deploy_job] in [sui-cicd-design/src/generate_ci.py],
    lines 371-397. *)
Definition install_homebrew_and_sui_jq : pystr :=
  unlines [
    E;
    "                        # Install Homebrew";
    D ["                        /bin/bash -c ";
       "$(curl -fsSL https://raw.githubusercontent.com/Homebrew/install/HEAD/install.sh)"; E];
    "                        ";
    "                        # Add brew to PATH for this step and future steps";
    D ["                        echo "; "/home/linuxbrew/.linuxbrew/bin"; " >> $GITHUB_PATH"];
    D ["                        echo "; "/home/linuxbrew/.linuxbrew/sbin"; " >> $GITHUB_PATH"];
    "                        ";
    "                        # Set environment variables for this workflow";
    D ["                        echo "; "HOMEBREW_PREFIX=/home/linuxbrew/.linuxbrew"; " >> $GITHUB_ENV"];
    D ["                        echo "; "HOMEBREW_CELLAR=/home/linuxbrew/.linuxbrew/Cellar";
       " >> $GITHUB_ENV"];
    D ["                        echo ";
       "HOMEBREW_REPOSITORY=/home/linuxbrew/.linuxbrew/Homebrew"; " >> $GITHUB_ENV"];
    "                        ";
    "                        # Source brew environment for this step";
    D ["                        eval "; "$(/home/linuxbrew/.linuxbrew/bin/brew shellenv)"; E];
    "                        ";
    "                        # Install dependencies";
    "                        sudo apt-get update";
    "                        sudo apt-get install -y build-essential jq";
    "                        brew install gcc";
    "                        ";
    "                        # Install Sui";
    "                        brew install sui";
    "                        ";
    "                        # Verify Sui installation";
    "                        sui --version";
    "                    "].

(** [generate_security_job] in [sui-cicd-design/src/generate_ci.py], lines
    177-191. *)
Definition run_sui_built_in_linters : pystr :=
  unlines [
    E;
    "                        # Run Move build with linting enabled";
    D ["                        echo "; "=== Running Sui Built-in Linters ==="; E];
    D ["                        sui move build --lint || echo "; "Linting completed with warnings"; E];
    "                        ";
    "                        # Check for potential security issues in linter output";
    D ["                        echo "; "=== Linter Security Summary ==="; E];
    D ["                        echo "; "Built-in linters check for:"; E];
    D ["                        echo "; "- Coin field optimization (W03001)"; E];
    D ["                        echo "; "- Collection equality issues (W05001)"; " "];
    D ["                        echo "; "- Custom state change problems (W02001)"; E];
    D ["                        echo "; "- Freeze wrapped object issues (W04001)"; E];
    D ["                        echo "; "- Self transfer anti-patterns (W01001)"; E];
    D ["                        echo "; "- Share owned object problems (W00001)"; E];
    "                    "].

(** [generate_security_job] in [sui-cicd-design/src/generate_ci.py], lines
    196-231. *)
Definition security_best_practices_check : pystr :=
  unlines [
    E;
    D ["                        echo "; "=== Security Best Practices Analysis ==="; E];
    "                        ";
    "                        # Check for common security patterns";
    D ["                        echo "; "Checking for common security patterns..."; E];
    "                        ";
    "                        # Check for proper access controls";
    D ["                        echo "; "â†’ Checking access control patterns..."; E];
    D ["                        grep -r "; "public("; " sources/ || echo ";
       "No public functions found"; E];
    D ["                        grep -r "; "entry "; " sources/ || echo ";
       "No entry functions found"; E];
    D ["                        grep -r "; "public(package)"; " sources/ || echo ";
       "No package-level functions found"; E];
    "                        ";
    "                        # Check for proper object management";
    D ["                        echo "; "â†’ Checking object management..."; E];
    D ["                        grep -r "; "transfer::"; " sources/ || echo ";
       "No transfer operations found"; E];
    D ["                        grep -r "; "share_object"; " sources/ || echo ";
       "No shared objects found"; E];
    "                        ";
    "                        # Check for capability usage";
    D ["                        echo "; "â†’ Checking capability usage..."; E];
    D ["                        grep -r "; "has key"; " sources/ || echo ";
       "No key capabilities found"; E];
    D ["                        grep -r "; "has store"; " sources/ || echo ";
       "No store capabilities found"; E];
    "                        ";
    "                        # Check for potential flash loan patterns";
    D ["                        echo "; "â†’ Checking for flash loan patterns (Hot Potato)..."; E];
    D ["                        grep -r "; "borrow\|loan"; " sources/ || echo ";
       "No borrowing patterns found"; E];
    "                        ";
    "                        # Check for arithmetic operations that might overflow";
    D ["                        echo "; "â†’ Checking arithmetic operations..."; E];
    D ["                        grep -r "; "<<\|>>"; " sources/ && echo ";
       "âš ï¸  Found bitwise operations - check for overflow"; " || echo ";
       "No bitwise operations found"; E];
    "                        ";
    "                        # Check for external calls";
    D ["                        echo "; "â†’ Checking external module usage..."; E];
    D ["                        grep -r "; "use.*::"; " sources/ | head -10 || echo ";
       "No external modules found"; E];
    "                        ";
    D ["                        echo "; "âœ… Security best practices check completed"; E];
    "                    "].

(** [generate_security_job] in [sui-cicd-design/src/generate_ci.py], lines
    236-256. *)
Definition formal_verification_check : pystr :=
  unlines [
    E;
    D ["                        echo "; "=== Formal Verification Analysis ==="; E];
    "                        ";
    "                        # Check if Sui Prover specs are present";
    D ["                        if find sources/ -name "; "*.move"; " -exec grep -l ";
       "spec\|ensures\|requires\|aborts_if"; " {} \; | head -5; then"];
    D ["                            echo "; "âœ… Found formal verification specs"; E];
    D ["                            echo "; "Formal specs help prove:"; E];
    D ["                            echo "; "- Function correctness"; E];
    D ["                            echo "; "- Invariant preservation"; E];
    D ["                            echo "; "- Absence of arithmetic overflows"; E];
    D ["                            echo "; "- Resource safety properties"; E];
    "                        else";
    D ["                            echo "; "âš ï¸  No formal verification specs found"; E];
    D ["                            echo "; "Consider adding formal specs for critical functions:"; E];
    D ["                            echo "; "- spec ensures result == expected"; E];
    D ["                            echo "; "- spec requires input > 0"; E];
    D ["                            echo "; "- spec aborts_if condition"; E];
    D ["                            echo "; E; E];
    D ["                            echo ";
       "Learn more: https://github.com/asymptotic-io/sui-prover"; E];
    "                        fi";
    "                    "].

(** [generate_security_job] in [sui-cicd-design/src/generate_ci.py], lines
    261-337. *)
Definition generate_security_report : pystr :=
  unlines [
    E;
    D ["                        echo "; "=== Generating Security Report ==="; E];
    "                        ";
    "                        # Create security report";
    "                        cat > security-report.md << 'EOF'";
    "                        # Security Analysis Report";
    "                        ";
    "                        ## Overview";
    "                        This report summarizes the security analysis of the Sui Move smart contracts.";
    "                        ";
    "                        ## Tools Used";
    "                        - **Sui Built-in Linters**: Checks for Move-specific anti-patterns";
    "                        - **Security Best Practices**: Manual checks for common vulnerabilities";
    "                        - **Formal Verification**: Checks for mathematical proofs of correctness";
    "                        ";
    "                        ## Security Considerations for Sui Move Contracts";
    "                        ";
    "                        ### 1. Access Control";
    "                        - âœ… Review function visibility (`public`, `entry`, `public(package)`)";
    "                        - âœ… Ensure proper capability-based security";
    "                        - âœ… Validate object ownership patterns";
    "                        ";
    "                        ### 2. Object Management  ";
    "                        - âœ… Proper use of transfer operations";
    "                        - âœ… Correct shared vs owned object handling";
    "                        - âœ… Avoid freezing wrapped objects";
    "                        ";
    "                        ### 3. Arithmetic Safety";
    "                        - âœ… Move provides automatic overflow protection";
    "                        - âš ï¸ Bitwise operations don't have overflow checks";
    "                        - âœ… Consider precision errors in calculations";
    "                        ";
    "                        ### 4. Resource Safety";
    "                        - âœ… Move's linear type system prevents double-spending";
    "                        - âœ… Resources must be explicitly consumed or stored";
    "                        - âœ… No dangling references possible";
    "                        ";
    "                        ### 5. Flash Loan Protection";
    D ["                        - âœ… Analyze "; "Hot Potato"; " patterns"];
    "                        - âœ… Ensure proper state validation";
    "                        - âœ… Check for price oracle manipulation";
    "                        ";
    "                        ## Recommended Security Practices";
    "                        ";
    "                        1. **Use Formal Verification**: Add specs to critical functions";
    "                        2. **Professional Audit**: Consider audits from:";
    "                           - MoveBit (Move-focused security)";
    "                           - OtterSec (Multi-chain auditor)";
    "                           - Beosin (Move Lint tools)";
    "                           - SlowMist (Comprehensive auditing)";
    "                        3. **Static Analysis**: Use available linting tools";
    "                        4. **Testing**: Comprehensive unit and integration tests";
    "                        5. **Documentation**: Clear function specifications";
    "                        ";
    "                        ## External Security Resources";
    "                        ";
    "                        - [Sui Move Security Guide](https://docs.sui.io/concepts/sui-move-concepts)";
    "                        - [MoveBit Security Tools](https://m.movebit.xyz/MoveScanner)";
    "                        - [Sui Prover](https://github.com/asymptotic-io/sui-prover)";
    "                        - [SlowMist Audit Primer](https://github.com/slowmist/Sui-MOVE-Smart-Contract-Auditing-Primer)";
    "                        ";
    "                        ---";
    "                        *Report generated on $(date)*";
    "                        EOF";
    "                        ";
    D ["                        echo "; "âœ… Security report generated: security-report.md"; E];
    "                        ";
    "                        # Display key security recommendations";
    D ["                        echo "; E; E];
    D ["                        echo "; "=== Key Security Recommendations ==="; E];
    D ["                        echo "; "1. ðŸ” Consider professional security audit before mainnet"; E];
    D ["                        echo ";
       "2. ðŸ“ Add formal verification specs for critical functions"; E];
    D ["                        echo "; "3. ðŸ§ª Implement comprehensive test coverage"; E];
    D ["                        echo "; "4. ðŸ”’ Review all public/entry function access controls"; E];
    D ["                        echo "; "5. ðŸ’° Validate economic assumptions and tokenomics"; E];
    D ["                        echo "; "6. ðŸ—ï¸  Test upgrade and migration procedures"; E];
    "                    "].

(** [generate_deploy_job] in [sui-cicd-design/src/generate_ci.py], lines
    401-503. *)
Definition setup_sui_cli_config_and_deploy_staged : pystr :=
  unlines [
    E;
    "                        # Verify sui command is available";
    D ["                        which sui || (echo "; "Sui command not found in PATH"; " && exit 1)"];
    "                        ";
    "                        # Check if all required secrets are provided";
    D ["                        if [ -z "; "$SUI_CONFIG"; " ] || [ -z "; "$SUI_KEYSTORE";
       " ] || [ -z "; "$SUI_ALIASES"; " ]; then"];
    D ["                            echo ";
       "âš ï¸  Deployment skipped: Required secrets are not configured"; E];
    D ["                            echo "; "To enable deployment:"; E];
    D ["                            echo ";
       "1. Add SUI_CONFIG secret with your wallet configuration"; E];
    D ["                            echo ";
       "2. Add SUI_KEYSTORE secret with your keystore file content"; E];
    D ["                            echo ";
       "3. Add SUI_ALIASES secret with your aliases file content"; E];
    D ["                            echo "; "4. Fund the wallet with devnet SUI tokens"; E];
    "                            exit 0";
    "                        fi";
    "                        ";
    "                        # Create config directory";
    "                        mkdir -p ~/.sui/sui_config";
    "                        ";
    D ["                        echo "; "Setting up Sui configuration..."; E];
    D ["                        echo "; "SUI_CONFIG secret present: $([ -n "; "$SUI_CONFIG";
       " ] && echo "; "YES"; " || echo "; "NO"; ")"; E];
    D ["                        echo "; "SUI_KEYSTORE secret present: $([ -n "; "$SUI_KEYSTORE";
       " ] && echo "; "YES"; " || echo "; "NO"; ")"; E];
    D ["                        echo "; "SUI_ALIASES secret present: $([ -n "; "$SUI_ALIASES";
       " ] && echo "; "YES"; " || echo "; "NO"; ")"; E];
    "                        ";
    "                        # Write config file";
    D ["                        echo "; "Writing SUI_CONFIG to client.yaml..."; E];
    D ["                        echo "; "$SUI_CONFIG"; " > ~/.sui/sui_config/client.yaml"];
    D ["                        echo "; "âœ… Written SUI_CONFIG to client.yaml"; E];
    "                        ";
    "                        # Write keystore file";
    D ["                        echo "; "Writing SUI_KEYSTORE to sui.keystore..."; E];
    D ["                        echo "; "$SUI_KEYSTORE"; " > ~/.sui/sui_config/sui.keystore"];
    D ["                        echo "; "âœ… Written SUI_KEYSTORE"; E];
    "                        ";
    "                        # Write aliases file";
    D ["                        echo "; "Writing SUI_ALIASES to sui.aliases..."; E];
    D ["                        echo "; "$SUI_ALIASES"; " > ~/.sui/sui_config/sui.aliases"];
    D ["                        echo "; "âœ… Written SUI_ALIASES"; E];
    "                        ";
    "                        # Set proper permissions";
    "                        chmod 600 ~/.sui/sui_config/*";
    "                        ";
    "                        # Fix the keystore path in client.yaml";
    D ["                        echo "; "Fixing keystore path in client.yaml..."; E];
    "                        sed -i 's|/home/ngocanh/.sui/sui_config/sui.keystore|/home/runner/.sui/sui_config/sui.keystore|g' ~/.sui/sui_config/client.yaml";
    D ["                        echo "; "âœ… Updated keystore path"; E];
    "                        ";
    "                        # Try to check addresses from configuration";
    D ["                        echo "; "=== Checking Sui Configuration ==="; E];
    "                        sui client addresses || {";
    D ["                            echo ";
       "Failed to get addresses from keystore. Creating a new address for CI deployment..."; E];
    "                            ";
    "                            # Create a new address for CI deployment";
    D ["                            echo "; "Creating new address..."; E];
    "                            NEW_ADDRESS=$(sui client new-address ed25519 --json | jq -r '.address' 2>/dev/null || {";
    "                                sui client new-address ed25519 | grep -oE '0x[a-fA-F0-9]+' | head -1";
    "                            })";
    "                            ";
    D ["                            if [ -n "; "$NEW_ADDRESS"; " ]; then"];
    D ["                                echo "; "âœ… Created new address: $NEW_ADDRESS"; E];
    "                                ";
    "                                # Try to get devnet tokens";
    D ["                                echo "; "Requesting devnet tokens..."; E];
    D ["                                curl -X POST https://faucet.devnet.sui.io/gas                                     -H 'Content-Type: application/json'                                     -d ";
       "{"; "FixedAmountRequest"; ":{"; "recipient"; ":"; "$NEW_ADDRESS"; "}}";
       "                                     --silent --show-error || echo ";
       "Warning: Failed to request tokens from faucet"; E];
    "                                ";
    "                                # Wait for the faucet";
    D ["                                echo "; "Waiting for faucet transaction..."; E];
    "                                sleep 10";
    "                            else";
    D ["                                echo "; "âŒ Failed to create new address"; E];
    "                            exit 1";
    "                            fi";
    "                        }";
    "                        ";
    "                        # Final check - get active address";
    D ["                        ACTIVE_ADDRESS=$(sui client active-address 2>/dev/null || echo ";
       E; ")"];
    D ["                        if [ -z "; "$ACTIVE_ADDRESS"; " ] || [ "; "$ACTIVE_ADDRESS";
       " = "; "None"; " ]; then"];
    D ["                            echo "; "âŒ No active address found after configuration"; E];
    "                            exit 1";
    "                        else";
    D ["                            echo "; "âœ… Active address: $ACTIVE_ADDRESS"; E];
    "                        fi";
    "                        ";
    "                        # Check if we have gas before attempting deployment";
    D ["                        echo "; "Checking gas balance..."; E];
    "                        if ! sui client gas; then";
    D ["                            echo ";
       "âŒ Failed to check gas balance or no gas objects found."; E];
    D ["                            echo ";
       "Please fund your address with devnet SUI tokens before deployment."; E];
    D ["                            echo ";
       "You can get devnet tokens from: https://discord.com/channels/916379725201563759/971488439931392130";
       E];
    "                            exit 1";
    "                        fi";
    "                        ";
    D ["                        echo "; "=== Publishing Package ==="; E];
    "                        if sui client publish --gas-budget 100000000; then";
    D ["                            echo "; "âœ… Package published successfully to devnet"; E];
    "                        else";
    D ["                            echo "; "âŒ Deployment failed"; E];
    D ["                            echo ";
       "This might be due to insufficient gas, network issues, or compilation errors"; E];
    "                            exit 1";
    "                        fi";
    "                    "].

(** [generate_env_setup] in [src/generate_ci.py], lines 105-231. *)
Definition setup_sui_cli_config_and_deploy : pystr :=
  unlines [
    E;
    "                        # Verify sui command is available";
    D ["                        which sui || (echo "; "Sui command not found in PATH"; " && exit 1)"];
    "                        ";
    "                        # Check if all required secrets are provided";
    D ["                        if [ -z "; "$SUI_CONFIG"; " ] || [ -z "; "$SUI_KEYSTORE";
       " ] || [ -z "; "$SUI_ALIASES"; " ]; then"];
    D ["                            echo ";
       "⚠️  Deployment skipped: Required secrets are not configured"; E];
    D ["                            echo "; "To enable deployment:"; E];
    D ["                            echo ";
       "1. Add SUI_CONFIG secret with your wallet configuration"; E];
    D ["                            echo ";
       "2. Add SUI_KEYSTORE secret with your keystore file content"; E];
    D ["                            echo ";
       "3. Add SUI_ALIASES secret with your aliases file content"; E];
    D ["                            echo "; "4. Fund the wallet with devnet SUI tokens"; E];
    "                            exit 0";
    "                        fi";
    "                        ";
    "                        # Create config directory";
    "                        mkdir -p ~/.sui/sui_config";
    "                        ";
    D ["                        echo "; "Setting up Sui configuration..."; E];
    D ["                        echo "; "SUI_CONFIG secret present: $([ -n "; "$SUI_CONFIG";
       " ] && echo "; "YES"; " || echo "; "NO"; ")"; E];
    D ["                        echo "; "SUI_KEYSTORE secret present: $([ -n "; "$SUI_KEYSTORE";
       " ] && echo "; "YES"; " || echo "; "NO"; ")"; E];
    D ["                        echo "; "SUI_ALIASES secret present: $([ -n "; "$SUI_ALIASES";
       " ] && echo "; "YES"; " || echo "; "NO"; ")"; E];
    "                        ";
    "                        # Write config file";
    D ["                        echo "; "Writing SUI_CONFIG to client.yaml..."; E];
    D ["                        echo "; "$SUI_CONFIG"; " > ~/.sui/sui_config/client.yaml"];
    D ["                        echo "; "✅ Written SUI_CONFIG to client.yaml"; E];
    "                        ";
    "                        # Write keystore file";
    D ["                        echo "; "Writing SUI_KEYSTORE to sui.keystore..."; E];
    D ["                        echo "; "$SUI_KEYSTORE"; " > ~/.sui/sui_config/sui.keystore"];
    D ["                        echo "; "✅ Written SUI_KEYSTORE"; E];
    "                        ";
    "                        # Write aliases file";
    D ["                        echo "; "Writing SUI_ALIASES to sui.aliases..."; E];
    D ["                        echo "; "$SUI_ALIASES"; " > ~/.sui/sui_config/sui.aliases"];
    D ["                        echo "; "✅ Written SUI_ALIASES"; E];
    "                        ";
    "                        # Set proper permissions";
    "                        chmod 600 ~/.sui/sui_config/*";
    "                        ";
    "                        # Fix the keystore path in client.yaml";
    D ["                        echo "; "Fixing keystore path in client.yaml..."; E];
    "                        sed -i 's|/home/ngocanh/.sui/sui_config/sui.keystore|/home/runner/.sui/sui_config/sui.keystore|g' ~/.sui/sui_config/client.yaml";
    D ["                        echo "; "✅ Updated keystore path"; E];
    "                        ";
    "                        # Verify the files have correct content";
    D ["                        echo "; "=== Debugging Configuration Files ==="; E];
    D ["                        echo "; "client.yaml content:"; E];
    "                        cat ~/.sui/sui_config/client.yaml";
    D ["                        echo "; E; E];
    D ["                        echo "; "keystore content:"; E];
    "                        cat ~/.sui/sui_config/sui.keystore";
    D ["                        echo "; E; E];
    "                        ";
    "                        # Try to check if Sui recognizes the configuration";
    D ["                        echo "; "=== Testing Sui Configuration ==="; E];
    D ["                        echo "; "Active environment:"; E];
    D ["                        sui client active-env || echo "; "Failed to get active env"; E];
    "                        ";
    D ["                        echo "; "Checking addresses (this might fail):"; E];
    "                        sui client addresses || {";
    D ["                            echo ";
       "Failed to get addresses from keystore. Creating a new address for CI deployment..."; E];
    "                            ";
    "                            # Create a new address for CI deployment";
    D ["                            echo "; "Creating new address..."; E];
    "                            NEW_ADDRESS=$(sui client new-address ed25519 --json | jq -r '.address' 2>/dev/null || {";
    "                                # Fallback if JSON parsing fails";
    "                                sui client new-address ed25519 | grep -oE '0x[a-fA-F0-9]+' | head -1";
    "                            })";
    "                            ";
    D ["                            if [ -n "; "$NEW_ADDRESS"; " ]; then"];
    D ["                                echo "; "✅ Created new address: $NEW_ADDRESS"; E];
    "                                ";
    "                                # Try to get devnet tokens";
    D ["                                echo "; "Requesting devnet tokens..."; E];
    D ["                                curl -X POST https://faucet.devnet.sui.io/gas                                     -H 'Content-Type: application/json'                                     -d ";
       "{"; "FixedAmountRequest"; ":{"; "recipient"; ":"; "$NEW_ADDRESS"; "}}";
       "                                     --silent --show-error || echo ";
       "Warning: Failed to request tokens from faucet"; E];
    "                                ";
    "                                # Wait a bit for the faucet";
    D ["                                echo "; "Waiting for faucet transaction..."; E];
    "                                sleep 10";
    "                                ";
    "                                # Check if we received tokens";
    D ["                                echo "; "Checking gas objects..."; E];
    "                                sui client gas || {";
    D ["                                    echo ";
       "❌ No gas objects found. Deployment cannot proceed."; E];
    D ["                                    echo "; "Please manually fund the address: $NEW_ADDRESS"; E];
    D ["                                    echo ";
       "You can use the faucet at: https://discord.com/channels/916379725201563759/971488439931392130";
       E];
    "                                    exit 1";
    "                                }";
    "                            else";
    D ["                                echo "; "❌ Failed to create new address"; E];
    "                                exit 1";
    "                            fi";
    "                        }";
    "                        ";
    "                        # Final check - get active address";
    D ["                        echo "; "=== Final Configuration Check ==="; E];
    D ["                        ACTIVE_ADDRESS=$(sui client active-address 2>/dev/null || echo ";
       E; ")"];
    D ["                        if [ -z "; "$ACTIVE_ADDRESS"; " ] || [ "; "$ACTIVE_ADDRESS";
       " = "; "None"; " ]; then"];
    D ["                            echo "; "❌ No active address found after configuration"; E];
    "                            exit 1";
    "                        else";
    D ["                            echo "; "✅ Active address: $ACTIVE_ADDRESS"; E];
    "                        fi";
    "                        ";
    "                        # Check if we have gas before attempting deployment";
    D ["                        echo "; "Checking gas balance..."; E];
    "                        if ! sui client gas; then";
    D ["                            echo "; "❌ Failed to check gas balance or no gas objects found."; E];
    D ["                            echo ";
       "Please fund your address with devnet SUI tokens before deployment."; E];
    D ["                            echo ";
       "You can get devnet tokens from: https://discord.com/channels/916379725201563759/971488439931392130";
       E];
    "                            exit 1";
    "                        fi";
    "                        ";
    D ["                        echo "; "=== Publishing Package ==="; E];
    "                        if sui client publish --gas-budget 100000000; then";
    D ["                            echo "; "✅ Package published successfully to devnet"; E];
    "                        else";
    D ["                            echo "; "❌ Deployment failed"; E];
    D ["                            echo ";
       "This might be due to insufficient gas, network issues, or compilation errors"; E];
    "                            exit 1";
    "                        fi";
    "                    "].

(** [generate_env_setup] in [src/generate_ci.py], lines 236-242. *)
Definition request_test_tokens : pystr :=
  unlines [
    E;
    "                        ACTIVE_ADDRESS=$(sui client active-address)";
    D ["                        echo "; "Requesting test tokens for $ACTIVE_ADDRESS"; E];
    D ["                        curl -X POST https://faucet.devnet.sui.io/gas                             -H 'Content-Type: application/json'                             -d '{";
       "FixedAmountRequest"; ":{"; "recipient"; ":"; "$ACTIVE_ADDRESS"; "}}'"];
    "                    "].

(** [generate_env_setup] in [src/generate_ci.py], lines 253-289. *)
Definition deploy_to_testnet : pystr :=
  unlines [
    E;
    "                        # Verify sui command is available";
    D ["                        which sui || (echo "; "Sui command not found in PATH"; " && exit 1)"];
    "                        ";
    "                        # Check if both SUI_CONFIG and SUI_KEYSTORE are provided";
    D ["                        if [ -z "; "$SUI_CONFIG"; " ] || [ -z "; "$SUI_KEYSTORE"; " ]; then"];
    D ["                            echo ";
       "⚠️  Deployment skipped: SUI_CONFIG or SUI_KEYSTORE secret is not configured"; E];
    D ["                            echo "; "To enable deployment:"; E];
    D ["                            echo ";
       "1. Add SUI_CONFIG secret with your wallet configuration"; E];
    D ["                            echo ";
       "2. Add SUI_KEYSTORE secret with your keystore file content"; E];
    D ["                            echo "; "3. Fund the wallet with testnet SUI tokens"; E];
    "                            exit 0";
    "                        fi";
    "                        ";
    D ["                        echo "; "Current active address:"; E];
    "                        sui client active-address || {";
    D ["                            echo ";
       "❌ No active address found. Please check your SUI_CONFIG and SUI_KEYSTORE secrets."; E];
    "                            exit 1";
    "                        }";
    "                        ";
    "                        # Check if we have gas before attempting deployment";
    D ["                        echo "; "Checking gas balance..."; E];
    "                        sui client gas || {";
    D ["                            echo ";
       "❌ Failed to check gas balance. Address may not be funded."; E];
    D ["                            echo ";
       "Please fund your address with testnet SUI tokens before deployment."; E];
    "                            exit 1";
    "                        }";
    "                        ";
    D ["                        echo "; "Publishing package..."; E];
    "                        if sui client publish --gas-budget 100000000; then";
    D ["                            echo "; "✅ Package published successfully"; E];
    "                        else";
    D ["                            echo "; "❌ Deployment failed"; E];
    D ["                            echo ";
       "This might be due to insufficient gas or network issues"; E];
    "                            exit 1";
    "                        fi";
    "                    "].

(** [generate_env_setup] in [src/generate_ci.py], lines 297-326. *)
Definition verify_deployment : pystr :=
  unlines [
    E;
    "                        # Verify sui command is available";
    D ["                        which sui || (echo "; "Sui command not found in PATH"; " && exit 1)"];
    "                        ";
    "                        # Skip verification if no SUI_CONFIG was provided";
    D ["                        if [ -z "; "$SUI_CONFIG"; " ]; then"];
    D ["                            echo ";
       "⚠️  Deployment verification skipped: No SUI_CONFIG provided"; E];
    "                            exit 0";
    "                        fi";
    "                        ";
    "                        # Get the latest transaction status";
    D ["                        echo "; "Checking recent transactions..."; E];
    "                        sui client transactions --limit 5 || true";
    "                        ";
    D ["                        LATEST_TX=$(sui client transactions --limit 1 | tail -n 1 | awk '{print $1}' 2>/dev/null || echo ";
       E; ")"];
    D ["                        if [ -n "; "$LATEST_TX"; " ] && [ "; "$LATEST_TX"; " != ";
       "digest"; " ]; then"];
    D ["                            echo "; "Verifying transaction: $LATEST_TX"; E];
    "                            # Check transaction status";
    D ["                            if sui client transaction "; "$LATEST_TX"; " | grep -q ";
       "Status.*Success"; "; then"];
    D ["                                echo "; "✅ Deployment verified successfully"; E];
    "                            else";
    D ["                                echo "; "❌ Deployment verification failed"; E];
    D ["                                sui client transaction "; "$LATEST_TX"; " || true"];
    "                                exit 1";
    "                            fi";
    "                        else";
    D ["                            echo ";
       "⚠️  No recent transaction found to verify, but deployment may have succeeded"; E];
    D ["                            echo "; "Check the Sui explorer for your package deployment"; E];
    "                        fi";
    "                    "].

End Script.

(** ** The four-job workflow: [sui-cicd-design/src/generate_ci.py] *)
Module Staged.

Definition generate_build_job (self : SuiCIGenerator) : pyval :=
  dict [
    ("name", str "Build");
    ("runs-on", str "ubuntu-latest");
    ("steps", PList [
      dict [("name", str "Checkout code"); ("uses", str "actions/checkout@v4")];
      dict [
        ("name", str "Install Homebrew and Sui");
        ("run", PStr Script.install_homebrew_and_sui)];
      dict [
        ("name", str "Build Move modules");
        ("run", PStr Script.build_move_modules);
        ("working-directory", str "${{ github.workspace }}")]])].

Definition generate_test_job (self : SuiCIGenerator) : pyval :=
  dict [
    ("name", str "Test");
    ("runs-on", str "ubuntu-latest");
    ("needs", str "build");
    ("steps", PList [
      dict [("name", str "Checkout code"); ("uses", str "actions/checkout@v4")];
      dict [
        ("name", str "Install Homebrew and Sui");
        ("run", PStr Script.install_homebrew_and_sui)];
      dict [
        ("name", str "Run Move tests");
        ("run", PStr Script.run_move_tests);
        ("working-directory", str "${{ github.workspace }}")]])].

Definition generate_security_job (self : SuiCIGenerator) : pyval :=
  dict [
    ("name", str "Security Analysis");
    ("runs-on", str "ubuntu-latest");
    ("needs", str "build");
    ("steps", PList [
      dict [("name", str "Checkout code"); ("uses", str "actions/checkout@v4")];
      dict [
        ("name", str "Install Homebrew and Sui");
        ("run", PStr Script.install_homebrew_and_sui_jq)];
      dict [
        ("name", str "Run Sui Built-in Linters");
        ("run", PStr Script.run_sui_built_in_linters);
        ("working-directory", str "${{ github.workspace }}")];
      dict [
        ("name", str "Security Best Practices Check");
        ("run", PStr Script.security_best_practices_check);
        ("working-directory", str "${{ github.workspace }}")];
      dict [
        ("name", str "Formal Verification Check");
        ("run", PStr Script.formal_verification_check);
        ("working-directory", str "${{ github.workspace }}")];
      dict [
        ("name", str "Generate Security Report");
        ("run", PStr Script.generate_security_report);
        ("working-directory", str "${{ github.workspace }}")];
      dict [
        ("name", str "Upload Security Report");
        ("uses", str "actions/upload-artifact@v4");
        ("with", dict [("name", str "security-report"); ("path", str "security-report.md")])]])].

Definition generate_deploy_job (self : SuiCIGenerator) : pyval :=
  dict [
    ("name", str "Deploy to Devnet");
    ("runs-on", str "ubuntu-latest");
    ("needs", PList [str "test"; str "security"]);
    ("if", str "github.ref == 'refs/heads/main' && github.event_name == 'push'");
    ("env", dict [
      ("SUI_NETWORK", str "devnet");
      ("SUI_CONFIG", str "${{ secrets.SUI_CONFIG }}");
      ("SUI_KEYSTORE", str "${{ secrets.SUI_KEYSTORE }}");
      ("SUI_ALIASES", str "${{ secrets.SUI_ALIASES }}")]);
    ("steps", PList [
      dict [("name", str "Checkout code"); ("uses", str "actions/checkout@v4")];
      dict [
        ("name", str "Install Homebrew and Sui");
        ("run", PStr Script.install_homebrew_and_sui_jq)];
      dict [
        ("name", str "Setup Sui CLI config and Deploy");
        ("run", PStr Script.setup_sui_cli_config_and_deploy_staged)]])].

(** Every dict and list display of the four methods is evaluated afresh at
    each call: no object occurs twice in the document. *)
Definition generate_workflow (self : SuiCIGenerator) : pyval :=
  let workflow := dict [
    ("name", str "Sui Smart Contract CI/CD");
    ("on", dict [
      ("push", dict [("branches", PList [str "main"; str "develop"])]);
      ("pull_request", dict [("branches", PList [str "main"; str "develop"])])]);
    ("env", dict [
      ("RUST_BACKTRACE", str "1");
      ("SUI_LOG_LEVEL", str "info")]);
    ("jobs", dict [
      ("build", generate_build_job self);
      ("test", generate_test_job self);
      ("security", generate_security_job self);
      ("deploy", generate_deploy_job self)])] in
  workflow.

End Staged.

(** ** The one-job workflow: [src/generate_ci.py] *)
Module Single.

Definition generate_env_setup (self : SuiCIGenerator) : pyval :=
  dict [
    ("name", str "Build and Deploy");
    ("runs-on", str "${{ matrix.os }}");
    ("strategy", dict [
      ("matrix", dict [("os", PList [str "ubuntu-latest"]); ("rust", PList [str "stable"])])]);
    ("steps", PList [
      dict [("name", str "Checkout code"); ("uses", str "actions/checkout@v4")];
      dict [
        ("name", str "Install Homebrew and Sui");
        ("run", PStr Script.install_homebrew_and_sui)];
      dict [
        ("name", str "Build Move modules");
        ("run", PStr Script.build_move_modules);
        ("working-directory", str "${{ github.workspace }}")];
      dict [
        ("name", str "Run Move tests");
        ("if", str "github.event_name == 'pull_request' || github.ref == 'refs/heads/main'");
        ("run", PStr Script.run_move_tests);
        ("working-directory", str "${{ github.workspace }}")];
      dict [
        ("name", str "Setup Sui CLI config and Deploy");
        ("if", str "github.ref == 'refs/heads/main' && github.event_name == 'push'");
        ("env", dict [
          ("SUI_NETWORK", str "devnet");
          ("SUI_CONFIG", str "${{ secrets.SUI_CONFIG }}");
          ("SUI_KEYSTORE", str "${{ secrets.SUI_KEYSTORE }}");
          ("SUI_ALIASES", str "${{ secrets.SUI_ALIASES }}")]);
        ("run", PStr Script.setup_sui_cli_config_and_deploy)];
      dict [
        ("name", str "Request Test Tokens");
        ("if", str "failure() && github.ref == 'refs/heads/main'");
        ("run", PStr Script.request_test_tokens)];
      dict [
        ("name", str "Deploy to testnet");
        ("if", str "github.ref == 'refs/heads/main' && github.event_name == 'push'");
        ("env", dict [
          ("SUI_NETWORK", str "devnet");
          ("SUI_CONFIG", str "${{ secrets.SUI_CONFIG }}");
          ("SUI_KEYSTORE", str "${{ secrets.SUI_KEYSTORE }}");
          ("SUI_ALIASES", str "${{ secrets.SUI_ALIASES }}")]);
        ("run", PStr Script.deploy_to_testnet)];
      dict [
        ("name", str "Verify deployment");
        ("if", str "github.ref == 'refs/heads/main' && github.event_name == 'push'");
        ("env", dict [("SUI_CONFIG", str "${{ secrets.SUI_CONFIG }}")]);
        ("run", PStr Script.verify_deployment)]])].

Definition generate_workflow (self : SuiCIGenerator) : pyval :=
  let workflow := dict [
    ("name", str "Sui Smart Contract CI/CD");
    ("on", dict [
      ("push", dict [("branches", PList [str "main"; str "develop"])]);
      ("pull_request", dict [("branches", PList [str "main"; str "develop"])])]);
    ("env", dict [
      ("RUST_BACKTRACE", str "1");
      ("SUI_LOG_LEVEL", str "info");
      ("SUI_BRANCH", str "devnet")]);
    ("jobs", dict [
      ("build-and-deploy", generate_env_setup self)])] in
  workflow.

End Single.

(** ** Reading a workflow document *)

(** The names of the jobs, in order, and the job of a given name. *)
Definition stage_names (doc : pyval) : option (list pykey) :=
  match item doc "jobs" with
  | Some jobs => keys jobs
  | None => None
  end.

Definition stage (doc : pyval) (name : string) : option pyval :=
  match item doc "jobs" with
  | Some jobs => item jobs name
  | None => None
  end.

(** Whether a job names [name] among its dependencies.  The platform reads
    the [needs] field as one job name or as a list of job names. *)
Definition depends_on (job : pyval) (name : string) : bool :=
  match item job "needs" with
  | Some (PStr s) => pystr_eqb s (u name)
  | Some (PList l) =>
      existsb (fun v => match v with
                        | PStr s => pystr_eqb s (u name)
                        | _ => false
                        end) l
  | _ => false
  end.

Definition names (l : list string) : list pykey := map (fun s => KStr (u s)) l.

(** A document with exactly the four stages build, test, security and
    deploy, wired as the pipeline is described: test and security after
    build, deploy after test and security. *)
Definition four_stage_pipeline (doc : pyval) : Prop :=
  stage_names doc = Some (names ["build"; "test"; "security"; "deploy"]) /\
  (exists test, stage doc "test" = Some test /\ depends_on test "build" = true) /\
  (exists sec, stage doc "security" = Some sec /\ depends_on sec "build" = true) /\
  (exists dep, stage doc "deploy" = Some dep /\
               depends_on dep "test" = true /\ depends_on dep "security" = true).

(** The configuration [main] builds when the program is run without
    arguments, and its generator. *)
Definition default_config : pydict :=
  [(KStr (u "project_root"), str "."); (KStr (u "enable_deployment"), PBool false)].

Definition default_generator : SuiCIGenerator :=
  {| config := default_config;
     project_root := Path_of (u ".");
     workflow_dir := (Path_of (u ".") // ".github" // "workflows")%path |}.

(** ** The file system and the world *)

(** A directory tree.  The entries of a directory are listed with their
    names; a name is looked up from the front of the list.  Permissions
    and links are outside this model: the process may search, read and
    write every directory. *)
Inductive node : Type :=
| File (content : string)
| Dir (entries : list (pystr * node)).

Fixpoint lookup (x : pystr) (es : list (pystr * node)) : option node :=
  match es with
  | [] => None
  | (y, n) :: rest => if pystr_eqb y x then Some n else lookup x rest
  end.

(** Binds [x] to [n]: in place when [x] is bound, at the end otherwise. *)
Fixpoint bind_entry (es : list (pystr * node)) (x : pystr) (n : node)
  : list (pystr * node) :=
  match es with
  | [] => [(x, n)]
  | (y, m) :: rest =>
      if pystr_eqb y x then (y, n) :: rest else (y, m) :: bind_entry rest x n
  end.

(** The node at a list of names that holds neither [.] nor [..]. *)
Fixpoint get (n : node) (p : list pystr) : option node :=
  match p with
  | [] => Some n
  | x :: r =>
      match n with
      | Dir es => match lookup x es with
                  | Some c => get c r
                  | None => None
                  end
      | File _ => None
      end
  end.

(** Puts [new] at [p]; every name of [p] but the last must lead through a
    directory. *)
Fixpoint put (n : node) (p : list pystr) (new : node) : option node :=
  match p with
  | [] => Some new
  | x :: r =>
      match n with
      | Dir es =>
          match r, lookup x es with
          | [], _ => Some (Dir (bind_entry es x new))
          | _, Some c =>
              match put c r new with
              | Some c' => Some (Dir (bind_entry es x c'))
              | None => None
              end
          | _, None => None
          end
      | File _ => None
      end
  end.

(** What the program sees of its environment: the directory tree from the
    root, the working directory (by its names from the root) and the lines
    printed so far. *)
Record world : Type := mkWorld {
  root : node;
  cwd : list pystr;
  stdout : list string
}.

(** A computation reads and changes the world and returns a value or
    raises an exception. *)
Definition M (A : Type) : Type := world -> result A * world.

Definition ret {A} (a : A) : M A := fun w => (Ok a, w).
Definition raise {A} (e : exn) : M A := fun w => (Raise e, w).
Definition bind {A B} (c : M A) (k : A -> M B) : M B :=
  fun w => match c w with
           | (Ok a, w') => k a w'
           | (Raise e, w') => (Raise e, w')
           end.
Definition lift {A} (r : result A) : M A := fun w => (r, w).

Declare Scope monad_scope.
Delimit Scope monad_scope with monad.
Notation "x <- c ;; k" := (bind c (fun x => k))
  (at level 61, c at next level, right associativity) : monad_scope.
Notation "c ;;; k" := (bind c (fun _ => k))
  (at level 61, right associativity) : monad_scope.
Open Scope monad_scope.

(** [try: c except E1: h1 ...]: the handler sees the exception; the world is
    the one the failed computation left. *)
Definition try_except {A} (c : M A) (handler : exn -> M A) : M A :=
  fun w => match c w with
           | (Ok a, w') => (Ok a, w')
           | (Raise e, w') => handler e w'
           end.

Definition is_OSError (e : exn) : bool :=
  match e with
  | FileNotFoundError | NotADirectoryError | IsADirectoryError
  | FileExistsError | OSError => true
  | TypeError | ValueError => false
  end.

(** *** System calls *)

Definition dotdot : pystr := u "..".

(** A name the interpreter can hand to the system: no NUL, and no surrogate
    other than the escapes of undecodable bytes (U+DC80 to U+DCFF). *)
Definition encodable (x : pystr) : bool :=
  forallb (fun c => negb (c =? 0)%N &&
                    negb ((55296 <=? c)%N && (c <=? 57343)%N &&
                          negb ((56448 <=? c)%N && (c <=? 56575)%N))) x.

(** The length of a name in bytes, in the encoding of the file system
    (UTF-8, an escape of an undecodable byte standing for that byte). *)
Definition char_bytes (c : N) : N :=
  if (c <? 128)%N then 1
  else if (c <? 2048)%N then 2
  else if (56448 <=? c)%N && (c <=? 56575)%N then 1
  else if (c <? 65536)%N then 3
  else 4.

Definition name_bytes (x : pystr) : N :=
  fold_right (fun c n => (char_bytes c + n)%N) 0%N x.

(** The length in bytes of the text of the path, [str(p)] for a [pathlib]
    path: the root, the names and a slash between two names; [.] for the
    relative path of no name. *)
Definition path_bytes (p : Path) : N :=
  (match anchor p with Relative => 0 | Slash => 1 | DoubleSlash => 2 end +
   match parts p with
   | [] => if absolute p then 0 else 1
   | x :: r => fold_left (fun n y => n + 1 + name_bytes y) r (name_bytes x)
   end)%N.

(** The limits of Linux: a name has at most [NAME_MAX] bytes, the text of a
    path fewer than [PATH_MAX]. *)
Definition NAME_MAX : N := 255.
Definition PATH_MAX : N := 4096.

Definition short (x : pystr) : bool := (name_bytes x <=? NAME_MAX)%N.

(** Resolution of the names [ps] from the directory [cur]: the result is the
    place, by its names from the root, that the path leads to.  Every name is
    looked up in an existing directory, which the directory the walk starts
    from must be too; the place itself need not exist.  A name longer than
    [NAME_MAX] cannot be looked up ([ENAMETOOLONG]).  An empty name and
    [.] stay in the directory ([pathlib] never passes them, a path string
    given to [open] may). *)
Fixpoint walk (r : node) (cur : list pystr) (ps : list pystr)
  : result (list pystr) :=
  match ps with
  | [] =>
      match get r cur with
      | Some (Dir _) => Ok cur
      | Some (File _) => Raise NotADirectoryError
      | None => Raise FileNotFoundError
      end
  | p :: rest =>
      match get r cur with
      | Some (Dir _) =>
          if pystr_eqb p dotdot then walk r (removelast cur) rest
          else if negb (is_component p) then walk r cur rest
          else if negb (short p) then Raise OSError
          else match rest with
               | [] => Ok (cur ++ [p])
               | _ => walk r (cur ++ [p]) rest
               end
      | Some (File _) => Raise NotADirectoryError
      | None => Raise FileNotFoundError
      end
  end.

(** The interpreter refuses a path it cannot encode ([ValueError]), the
    system a text of [PATH_MAX] bytes or more ([ENAMETOOLONG]). *)
Definition resolve (w : world) (p : Path) : result (list pystr) :=
  if forallb encodable (parts p) then
    if (PATH_MAX <=? path_bytes p)%N then Raise OSError
    else walk (root w) (if absolute p then [] else cwd w) (parts p)
  else Raise ValueError.

(** [os.stat(p)] *)
Definition os_stat (p : Path) : M node :=
  fun w => match resolve w p with
           | Ok c => match get (root w) c with
                     | Some n => (Ok n, w)
                     | None => (Raise FileNotFoundError, w)
                     end
           | Raise e => (Raise e, w)
           end.

(** [os.scandir(p)], as the list of the names of the entries *)
Definition os_scandir (p : Path) : M (list pystr) :=
  n <- os_stat p ;;
  match n with
  | Dir es => ret (map fst es)
  | File _ => raise NotADirectoryError
  end.

(** [os.mkdir(p)] *)
Definition os_mkdir (p : Path) : M unit :=
  fun w => match resolve w p with
           | Ok c =>
               match get (root w) c with
               | Some _ => (Raise FileExistsError, w)
               | None =>
                   match put (root w) c (Dir []) with
                   | Some r' => (Ok tt, mkWorld r' (cwd w) (stdout w))
                   | None => (Raise FileNotFoundError, w)
                   end
               end
           | Raise e => (Raise e, w)
           end.

(** [with open(p) as f: f.read()] *)
Definition read_file (p : Path) : M string :=
  n <- os_stat p ;;
  match n with
  | File s => ret s
  | Dir _ => raise IsADirectoryError
  end.

(** [with open(p, 'w') as f: f.write(s)]: the file is created or
    truncated, then written. *)
Definition write_file (p : Path) (s : string) : M unit :=
  fun w => match resolve w p with
           | Ok c =>
               match get (root w) c with
               | Some (Dir _) => (Raise IsADirectoryError, w)
               | _ =>
                   match put (root w) c (File s) with
                   | Some r' => (Ok tt, mkWorld r' (cwd w) (stdout w))
                   | None => (Raise FileNotFoundError, w)
                   end
               end
           | Raise e => (Raise e, w)
           end.

(** [print(s)] *)
Definition print (s : string) : M unit :=
  fun w => (Ok tt, mkWorld (root w) (cwd w) (stdout w ++ [s])).

(** *** [pathlib.Path] methods

    As in CPython 3.11. *)

(** The errors [pathlib] takes for "no such file": [ENOENT], [ENOTDIR]
    ([_ignore_error]), and a path that cannot be encoded.  Any other error
    of the system is raised again. *)
Definition ignored (e : exn) : bool :=
  match e with
  | FileNotFoundError | NotADirectoryError | ValueError => true
  | _ => false
  end.

(** [p.exists()] *)
Definition Path_exists (p : Path) : M bool :=
  try_except (os_stat p ;;; ret true)
    (fun e => if ignored e then ret false else raise e).

(** [p.is_dir()] *)
Definition Path_is_dir (p : Path) : M bool :=
  try_except (n <- os_stat p ;;
              ret match n with Dir _ => true | File _ => false end)
    (fun e => if ignored e then ret false else raise e).

(** [fnmatch] for patterns of literal characters, [*] and [?] (character
    classes are not modelled; the program's one pattern has none).  The
    whole name must match. *)
Fixpoint fnmatch (pat : pystr) : pystr -> bool :=
  match pat with
  | [] => fun name => match name with [] => true | _ => false end
  | c :: pat' =>
      if (c =? 42)%N then
        fix star (name : pystr) : bool :=
          fnmatch pat' name || match name with
                               | [] => false
                               | _ :: r => star r
                               end
      else
        fun name => match name with
                    | [] => false
                    | d :: r => ((c =? 63)%N || (c =? d)%N) && fnmatch pat' r
                    end
  end.

(** [list(p.glob(pattern))] for a pattern of one component with a wildcard:
    the entries of the directory [p], of any kind, whose names match; none
    when [p] is not a directory. *)
Definition Path_glob (p : Path) (pattern : string) : M (list Path) :=
  d <- Path_is_dir p ;;
  if d then
    names <- os_scandir p ;;
    ret (map (fun x => mkPath (anchor p) (parts p ++ [x]))
             (filter (fnmatch (u pattern)) names))
  else ret [].

(** [p.parent] *)
Definition Path_parent (p : Path) : Path :=
  mkPath (anchor p) (removelast (parts p)).

(** [p.mkdir(parents=False, exist_ok=True)] *)
Definition mkdir_exist_ok (p : Path) : M unit :=
  try_except (os_mkdir p)
    (fun e =>
       match e with
       | FileNotFoundError => raise e
       | _ =>
           if is_OSError e then
             d <- Path_is_dir p ;; if d then ret tt else raise e
           else raise e
       end).

(** [p.mkdir(parents=True, exist_ok=True)], for the path whose components
    are [rev rparts]: the recursive call is on [p.parent], which is [p]
    itself when [p] has no component. *)
Fixpoint mkdir_parents (a : Anchor) (rparts : list pystr) : M unit :=
  let p := mkPath a (rev rparts) in
  try_except (os_mkdir p)
    (fun e =>
       match e with
       | FileNotFoundError =>
           match rparts with
           | [] => raise e
           | _ :: rparent =>
               mkdir_parents a rparent ;;; mkdir_exist_ok p
           end
       | _ =>
           if is_OSError e then
             d <- Path_is_dir p ;; if d then ret tt else raise e
           else raise e
       end).

Definition Path_mkdir (p : Path) : M unit :=
  mkdir_parents (anchor p) (rev (parts p)).

(** ** [yaml.safe_dump]

    A model of what PyYAML does on the call
    [yaml.safe_dump(workflow, f, sort_keys=False, default_flow_style=False)]
    for the values of this program: the representer turns the value into a
    tree of nodes, the resolver tells which plain scalars would be read back
    as something else than a string, and the emitter writes the tree in block
    style, at most 80 columns wide, indenting by two, without any non-ASCII
    character ([allow_unicode] is off).  No value occurs twice in a document
    of this program, so no anchor or alias is written. *)
Module Yaml.

Inductive tag : Type :=
| TagNull | TagBool | TagInt | TagFloat | TagStr
| TagMerge | TagTimestamp | TagValue | TagYaml.

Definition tag_eqb (a b : tag) : bool :=
  match a, b with
  | TagNull, TagNull | TagBool, TagBool | TagInt, TagInt
  | TagFloat, TagFloat | TagStr, TagStr | TagMerge, TagMerge
  | TagTimestamp, TagTimestamp | TagValue, TagValue | TagYaml, TagYaml => true
  | _, _ => false
  end.

(** *** Regular expressions, for the implicit resolvers *)

Inductive re : Type :=
| Void
| Eps
| Sym (ok : N -> bool)
| Cat (a b : re)
| Alt (a b : re)
| Star (a : re).

Fixpoint nullable (r : re) : bool :=
  match r with
  | Void => false
  | Eps => true
  | Sym _ => false
  | Cat a b => nullable a && nullable b
  | Alt a b => nullable a || nullable b
  | Star _ => true
  end.

Definition cat (a b : re) : re :=
  match a, b with
  | Void, _ | _, Void => Void
  | Eps, _ => b
  | _, Eps => a
  | _, _ => Cat a b
  end.

Definition alt (a b : re) : re :=
  match a, b with
  | Void, _ => b
  | _, Void => a
  | _, _ => Alt a b
  end.

(** The derivative of [r] by the character [c]. *)
Fixpoint deriv (c : N) (r : re) : re :=
  match r with
  | Void | Eps => Void
  | Sym ok => if ok c then Eps else Void
  | Cat a b =>
      if nullable a then alt (cat (deriv c a) b) (deriv c b)
      else cat (deriv c a) b
  | Alt a b => alt (deriv c a) (deriv c b)
  | Star a => cat (deriv c a) (Star a)
  end.

Fixpoint fullmatch (r : re) (s : pystr) : bool :=
  match s with
  | [] => nullable r
  | c :: s' => match r with
               | Void => false
               | _ => fullmatch (deriv c r) s'
               end
  end.

(** [re.match] of a pattern [^(?:r)$]: the dollar also matches before a
    line feed that ends the string. *)
Definition re_match (r : re) (s : pystr) : bool :=
  fullmatch r s || fullmatch (cat r (Sym (N.eqb 10))) s.

Definition lit (s : string) : re :=
  fold_right (fun x r => cat (Sym (N.eqb x)) r) Eps (u s).
Definition any_of (cs : string) : re :=
  Sym (fun c => existsb (N.eqb c) (u cs)).
Definition digit : re := Sym (fun c => (48 <=? c)%N && (c <=? 57)%N).
Definition digit_ : re := Sym (fun c => (48 <=? c)%N && (c <=? 57)%N || (c =? 95)%N).
Definition opt (r : re) : re := alt Eps r.
Definition plus (r : re) : re := cat r (Star r).
Definition alts (rs : list re) : re := fold_right alt Void rs.
Definition seqs (rs : list re) : re := fold_right cat Eps rs.

Definition sign : re := opt (any_of "-+").
Definition exponent : re := opt (seqs [any_of "eE"; any_of "-+"; plus digit]).
Definition sexagesimal : re := plus (seqs [lit ":"; opt (Sym (fun c => (48 <=? c)%N && (c <=? 53)%N)); digit]).

Definition bool_re : re :=
  alts (map lit ["yes"; "Yes"; "YES"; "no"; "No"; "NO";
                 "true"; "True"; "TRUE"; "false"; "False"; "FALSE";
                 "on"; "On"; "ON"; "off"; "Off"; "OFF"]).

Definition float_re : re :=
  alts [seqs [sign; digit; Star digit_; lit "."; Star digit_; exponent];
        seqs [lit "."; digit; Star digit_; exponent];
        seqs [sign; digit; Star digit_; sexagesimal; lit "."; Star digit_];
        seqs [sign; lit "."; alts [lit "inf"; lit "Inf"; lit "INF"]];
        seqs [lit "."; alts [lit "nan"; lit "NaN"; lit "NAN"]]].

Definition int_re : re :=
  alts [seqs [sign; lit "0b"; plus (any_of "01_")];
        seqs [sign; lit "0"; plus (any_of "01234567_")];
        seqs [sign; alt (lit "0")
                        (seqs [Sym (fun c => (49 <=? c)%N && (c <=? 57)%N); Star digit_])];
        seqs [sign; lit "0x"; plus (any_of "0123456789abcdefABCDEF_")];
        seqs [sign; Sym (fun c => (49 <=? c)%N && (c <=? 57)%N); Star digit_;
              sexagesimal]].

Definition merge_re : re := lit "<<".

Definition null_re : re := alts [lit "~"; lit "null"; lit "Null"; lit "NULL"; Eps].

Definition blank : re := Sym (fun c => (c =? 32)%N || (c =? 9)%N).

Definition timestamp_re : re :=
  alts [seqs [digit; digit; digit; digit; lit "-"; digit; digit; lit "-"; digit; digit];
        seqs [digit; digit; digit; digit; lit "-"; digit; opt digit;
              lit "-"; digit; opt digit;
              alt (any_of "Tt") (plus blank); digit; opt digit;
              lit ":"; digit; digit; lit ":"; digit; digit;
              opt (seqs [lit "."; Star digit]);
              opt (seqs [Star blank;
                         alt (lit "Z")
                             (seqs [any_of "-+"; digit; opt digit;
                                    opt (seqs [lit ":"; digit; digit])])])]].

Definition value_re : re := lit "=".
Definition yaml_re : re := alts [lit "!"; lit "&"; lit "*"].

(** The implicit resolvers in the order they are added, each with the first
    characters it is indexed by ([None] stands for the empty scalar). *)
Definition first_in (cs : string) (with_empty : bool) (s : pystr) : bool :=
  match s with
  | [] => with_empty
  | c :: _ => existsb (N.eqb c) (u cs)
  end.

Definition implicit_resolvers : list ((pystr -> bool) * tag * re) :=
  [(first_in "yYnNtTfFoO" false, TagBool, bool_re);
   (first_in "-+0123456789." false, TagFloat, float_re);
   (first_in "-+0123456789" false, TagInt, int_re);
   (first_in "<" false, TagMerge, merge_re);
   (first_in "~nN" true, TagNull, null_re);
   (first_in "0123456789" false, TagTimestamp, timestamp_re);
   (first_in "=" false, TagValue, value_re);
   (first_in "!&*" false, TagYaml, yaml_re)].

(** [resolve(ScalarNode, value, (True, False))]: the tag a plain scalar of
    this text is read with. *)
Definition resolve_plain (value : pystr) : tag :=
  match filter (fun r => let '(first, _, pattern) := r in
                         first value && re_match pattern value)
               implicit_resolvers with
  | (_, t, _) :: _ => t
  | [] => TagStr
  end.

(** *** The representer *)

Definition scalar : Type := (tag * pystr)%type.

(** The keys of a mapping are scalars here, as the keys of a dict are. *)
Inductive ynode : Type :=
| YScalar (s : scalar)
| YSeq (items : list ynode)
| YMap (pairs : list (scalar * ynode)).

(** [str(z)] *)
Definition decimal (z : Z) : pystr := u (NilZero.string_of_int (Z.to_int z)).

Definition represent_key (k : pykey) : scalar :=
  match k with
  | KNone => (TagNull, u "null")
  | KBool b => (TagBool, u (if b then "true" else "false"))
  | KInt z => (TagInt, decimal z)
  | KStr s => (TagStr, s)
  end.

(** [represent_data]: with [sort_keys=False] the pairs of a mapping are the
    items of the dict in their order. *)
Fixpoint represent (v : pyval) : ynode :=
  match v with
  | PNone => YScalar (represent_key KNone)
  | PBool b => YScalar (represent_key (KBool b))
  | PInt z => YScalar (represent_key (KInt z))
  | PStr s => YScalar (represent_key (KStr s))
  | PList l => YSeq (map represent l)
  | PDict d =>
      YMap (map (fun kv => match kv with
                           | (k, x) => (represent_key k, represent x)
                           end) d)
  end.

(** *** The emitter *)

Definition best_indent : N := 2.
Definition best_width : N := 80.

Record emitter : Type := mkEmitter {
  out : list ascii;        (* what was written, last character first *)
  column : N;
  whitespace : bool;
  indention : bool;
  open_ended : bool
}.

Definition start_emitter : emitter :=
  {| out := []; column := 0; whitespace := true; indention := true;
     open_ended := false |}.

Definition len (s : pystr) : N := N.of_nat (List.length s).

(** [self.column += len(data); self.stream.write(data)] *)
Definition write (data : pystr) (e : emitter) : emitter :=
  {| out := rev_append (map ascii_of_N data) (out e);
     column := column e + len data;
     whitespace := whitespace e;
     indention := indention e;
     open_ended := open_ended e |}.

Definition write_line_break (br : N) (e : emitter) : emitter :=
  {| out := ascii_of_N br :: out e;
     column := 0;
     whitespace := true;
     indention := true;
     open_ended := open_ended e |}.

Definition write_indent (indent : option N) (e : emitter) : emitter :=
  let indent := match indent with Some i => i | None => 0%N end in
  let e1 :=
    if negb (indention e) || (indent <? column e)%N
       || ((column e =? indent)%N && negb (whitespace e))
    then write_line_break 10 e else e in
  if (column e1 <? indent)%N then
    {| out := repeat " "%char (N.to_nat (indent - column e1)) ++ out e1;
       column := indent;
       whitespace := true;
       indention := indention e1;
       open_ended := open_ended e1 |}
  else e1.

Definition write_indicator (indicator : string)
    (need_whitespace whitespace' indention' : bool) (e : emitter) : emitter :=
  let data := if whitespace e || negb need_whitespace then indicator
              else (" " ++ indicator)%string in
  {| out := rev_append (list_ascii_of_string data) (out e);
     column := column e + N.of_nat (String.length data);
     whitespace := whitespace';
     indention := indention e && indention';
     open_ended := false |}.

Definition increase_indent (indent : option N) (flow indentless : bool)
  : option N :=
  match indent with
  | None => Some (if flow then best_indent else 0%N)
  | Some i => Some (if indentless then i else (i + best_indent)%N)
  end.

(** **** The analysis of a scalar *)

Record analysis : Type := mkAnalysis {
  empty : bool;
  multiline : bool;
  allow_flow_plain : bool;
  allow_block_plain : bool;
  allow_single_quoted : bool;
  allow_double_quoted : bool;
  allow_block : bool
}.

Definition is_break (c : N) : bool :=
  (c =? 10)%N || (c =? 133)%N || (c =? 8232)%N || (c =? 8233)%N.

(** NUL, space, tab, carriage return or a line break. *)
Definition is_white (c : N) : bool :=
  (c =? 0)%N || (c =? 32)%N || (c =? 9)%N || (c =? 13)%N || is_break c.

Definition printable_ascii (c : N) : bool := (32 <=? c)%N && (c <=? 126)%N.

Record scan : Type := mkScan {
  block_indicators : bool;
  flow_indicators : bool;
  line_breaks : bool;
  special_characters : bool;
  leading_space : bool;
  leading_break : bool;
  trailing_space : bool;
  trailing_break : bool;
  break_space : bool;
  space_break : bool;
  previous_space : bool;
  previous_break : bool
}.

Definition among (cs : string) (c : N) : bool := existsb (N.eqb c) (u cs).

(** One turn of the loop of [analyze_scalar], at the character [ch]. *)
Definition scan_char (first last preceded followed : bool) (ch : N) (f : scan)
  : scan :=
  let lead := first && among (D ["#,[]{}&*!|>'"; "%@`"]) ch in
  let flow :=
    if first then
      lead || among "?:" ch || ((ch =? 45)%N && followed)
    else
      among ",?[]{}" ch || (ch =? 58)%N || ((ch =? 35)%N && preceded) in
  let block :=
    if first then
      lead || (among "?:" ch && followed) || ((ch =? 45)%N && followed)
    else
      ((ch =? 58)%N && followed) || ((ch =? 35)%N && preceded) in
  let space := (ch =? 32)%N in
  let brk := is_break ch in
  {| block_indicators := block_indicators f || block;
     flow_indicators := flow_indicators f || flow;
     line_breaks := line_breaks f || brk;
     special_characters :=
       special_characters f || negb ((ch =? 10)%N || printable_ascii ch);
     leading_space := leading_space f || (space && first);
     leading_break := leading_break f || (brk && first);
     trailing_space := trailing_space f || (space && last);
     trailing_break := trailing_break f || (brk && last);
     break_space := break_space f || (space && previous_break f);
     space_break := space_break f || (brk && previous_space f);
     previous_space := space;
     previous_break := brk |}.

Fixpoint scan_chars (first preceded : bool) (s : pystr) (f : scan) : scan :=
  match s with
  | [] => f
  | ch :: rest =>
      let last := match rest with [] => true | _ => false end in
      let followed := match rest with [] => true | c :: _ => is_white c end in
      scan_chars false (is_white ch) rest
        (scan_char first last preceded followed ch f)
  end.

Fixpoint starts_with (p s : pystr) : bool :=
  match p, s with
  | [], _ => true
  | a :: p', b :: s' => (a =? b)%N && starts_with p' s'
  | _ :: _, [] => false
  end.

Definition analyze_scalar (s : pystr) : analysis :=
  match s with
  | [] =>
      {| empty := true; multiline := false;
         allow_flow_plain := false; allow_block_plain := true;
         allow_single_quoted := true; allow_double_quoted := true;
         allow_block := false |}
  | _ =>
      let doc := starts_with (u "---") s || starts_with (u "...") s in
      let f := scan_chars true true s
                 (mkScan doc doc false false false false false false false
                    false false false) in
      let edges := leading_space f || leading_break f
                   || trailing_space f || trailing_break f in
      let quoted_only := space_break f || special_characters f in
      {| empty := false;
         multiline := line_breaks f;
         allow_flow_plain :=
           negb (edges || break_space f || quoted_only || line_breaks f
                 || flow_indicators f);
         allow_block_plain :=
           negb (edges || break_space f || quoted_only || line_breaks f
                 || block_indicators f);
         allow_single_quoted := negb (break_space f || quoted_only);
         allow_double_quoted := true;
         allow_block := negb (trailing_space f || quoted_only) |}
  end.

Inductive style : Type := Plain | SingleQuoted | DoubleQuoted.

(** [choose_scalar_style] outside flow collections, for a node without a
    style of its own; [implicit0] tells that the plain scalar is read back
    with the tag of the node. *)
Definition choose_scalar_style (a : analysis) (implicit0 simple_key : bool)
  : style :=
  if implicit0 && negb (simple_key && (empty a || multiline a))
     && allow_block_plain a then Plain
  else if allow_single_quoted a && negb (simple_key && multiline a)
  then SingleQuoted
  else DoubleQuoted.


(** **** Writing a scalar

    The three loops run over the positions [end_] of the text, one past its
    last character included ([ch] is then [None]); [pending] is
    [text[start:end_]], last character first. *)

Definition no_flags (e : emitter) : emitter :=
  {| out := out e; column := column e; whitespace := false;
     indention := false; open_ended := open_ended e |}.

(** The line breaks written for a run of breaks of the text. *)
Definition write_breaks (run : pystr) (e : emitter) : emitter :=
  let e1 := match run with
            | 10%N :: _ => write_line_break 10 e
            | _ => e
            end in
  fold_left (fun acc br => write_line_break br acc) run e1.

Definition is_space (ch : option N) : bool :=
  match ch with Some 32%N => true | _ => false end.

Definition is_break_opt (ch : option N) : bool :=
  match ch with Some c => is_break c | None => false end.

Definition plain_step (split : bool) (indent : option N)
    (spaces breaks : bool) (start end_ : N) (pending : pystr)
    (ch : option N) (e : emitter) : N * pystr * emitter :=
  if spaces then
    if negb (is_space ch) then
      (end_, [],
       if (start + 1 =? end_)%N && (best_width <? column e)%N && split
       then no_flags (write_indent indent e)
       else write (rev pending) e)
    else (start, pending, e)
  else if breaks then
    if negb (is_break_opt ch) then
      (end_, [], no_flags (write_indent indent (write_breaks (rev pending) e)))
    else (start, pending, e)
  else
    match ch with
    | Some c =>
        if (c =? 32)%N || is_break c then (end_, [], write (rev pending) e)
        else (start, pending, e)
    | None => (end_, [], write (rev pending) e)
    end.

Fixpoint plain_loop (split : bool) (indent : option N) (rest : pystr)
    (spaces breaks : bool) (start end_ : N) (pending : pystr) (e : emitter)
  : emitter :=
  let '(start', pending', e') :=
    plain_step split indent spaces breaks start end_ pending (hd_error rest) e in
  match rest with
  | [] => e'
  | c :: rest' =>
      plain_loop split indent rest' (c =? 32)%N (is_break c)
        start' (end_ + 1) (c :: pending') e'
  end.

Definition set_open_ended (b : bool) (e : emitter) : emitter :=
  {| out := out e; column := column e; whitespace := whitespace e;
     indention := indention e; open_ended := b |}.

(** A plain scalar has no line break (see [choose_scalar_style]). *)
Definition write_plain (root split : bool) (indent : option N) (text : pystr)
    (e : emitter) : emitter :=
  let e := if root then set_open_ended true e else e in
  match text with
  | [] => e
  | _ =>
      let e := if whitespace e then e else write [32%N] e in
      plain_loop split indent text false false 0 0 [] (no_flags e)
  end.

Definition quote : N := 39.

Definition single_step (split : bool) (indent : option N)
    (spaces breaks : bool) (start end_ : N) (pending : pystr)
    (ch : option N) (e : emitter) : N * pystr * emitter :=
  let at_end := match ch with None => true | Some _ => false end in
  let '(start1, pending1, e1) :=
    if spaces then
      if negb (is_space ch) then
        (end_, [],
         if (start + 1 =? end_)%N && (best_width <? column e)%N && split
            && negb (start =? 0)%N && negb at_end
         then write_indent indent e
         else write (rev pending) e)
      else (start, pending, e)
    else if breaks then
      if negb (is_break_opt ch) then
        (end_, [], write_indent indent (write_breaks (rev pending) e))
      else (start, pending, e)
    else
      if at_end || is_space ch || is_break_opt ch
         || match ch with Some c => (c =? quote)%N | None => false end
      then
        if (start <? end_)%N then (end_, [], write (rev pending) e)
        else (start, pending, e)
      else (start, pending, e) in
  match ch with
  | Some c =>
      if (c =? quote)%N then ((end_ + 1)%N, [], write [quote; quote] e1)
      else (start1, pending1, e1)
  | None => (start1, pending1, e1)
  end.

Fixpoint single_loop (split : bool) (indent : option N) (rest : pystr)
    (spaces breaks : bool) (start end_ : N) (pending : pystr) (e : emitter)
  : emitter :=
  let '(start', pending', e') :=
    single_step split indent spaces breaks start end_ pending (hd_error rest) e in
  match rest with
  | [] => e'
  | c :: rest' =>
      single_loop split indent rest' (c =? 32)%N (is_break c)
        start' (end_ + 1) (if (start' <=? end_)%N then c :: pending' else []) e'
  end.

Definition write_single_quoted (split : bool) (indent : option N)
    (text : pystr) (e : emitter) : emitter :=
  write_indicator "'" false false false
    (single_loop split indent text false false 0 0 []
       (write_indicator "'" true false false e)).

Definition backslash : string := String (ascii_of_nat 92) EmptyString.

(** [ESCAPE_REPLACEMENTS] *)
Definition escape_replacement (c : N) : option string :=
  match c with
  | 0%N => Some "0" | 7%N => Some "a" | 8%N => Some "b" | 9%N => Some "t"
  | 10%N => Some "n" | 11%N => Some "v" | 12%N => Some "f" | 13%N => Some "r"
  | 27%N => Some "e" | 34%N => Some dq | 92%N => Some backslash
  | 133%N => Some "N" | 160%N => Some "_"
  | 8232%N => Some "L" | 8233%N => Some "P"
  | _ => None
  end.

Definition hex_digit (d : N) : N :=
  if (d <? 10)%N then (48 + d)%N else (55 + d)%N.

(** The [width] hexadecimal digits of [n], upper case. *)
Fixpoint hex (width : nat) (n : N) : pystr :=
  match width with
  | O => []
  | S w => hex w (n / 16) ++ [hex_digit (n mod 16)]
  end.

Definition escape (c : N) : pystr :=
  92%N ::
  match escape_replacement c with
  | Some r => u r
  | None =>
      if (c <=? 255)%N then 120%N :: hex 2 c
      else if (c <=? 65535)%N then 117%N :: hex 4 c
      else 85%N :: hex 8 c
  end.

(** The characters a double-quoted scalar cannot hold as they are. *)
Definition must_escape (c : N) : bool :=
  (c =? 34)%N || (c =? 92)%N || (c =? 133)%N || (c =? 8232)%N
  || (c =? 8233)%N || (c =? 65279)%N || negb (printable_ascii c).

Definition double_step (split : bool) (indent : option N) (total : N)
    (start end_ : N) (pending : pystr) (ch next : option N) (e : emitter)
  : N * pystr * emitter :=
  let '(start1, pending1, e1) :=
    match ch with
    | None =>
        if (start <? end_)%N then (end_, [], write (rev pending) e)
        else (start, pending, e)
    | Some c =>
        if must_escape c then
          let e0 := if (start <? end_)%N then write (rev pending) e else e in
          ((end_ + 1)%N, [], write (escape c) e0)
        else (start, pending, e)
    end in
  if (0 <? end_)%N && (end_ + 1 <? total)%N
     && (is_space ch || (end_ <=? start1)%N)
     && (Z.of_N best_width <?
           Z.of_N (column e1) + (Z.of_N end_ - Z.of_N start1))%Z
     && split
  then
    let start2 := if (start1 <? end_)%N then end_ else start1 in
    let e2 := no_flags (write_indent indent (write (rev pending1 ++ [92%N]) e1)) in
    let at_start := if (start2 =? end_)%N then ch else next in
    (start2, [], if is_space at_start then write [92%N] e2 else e2)
  else (start1, pending1, e1).

Fixpoint double_loop (split : bool) (indent : option N) (total : N)
    (rest : pystr) (start end_ : N) (pending : pystr) (e : emitter)
  : emitter :=
  let '(start', pending', e') :=
    double_step split indent total start end_ pending
      (hd_error rest) (hd_error (tl rest)) e in
  match rest with
  | [] => e'
  | c :: rest' =>
      double_loop split indent total rest' start' (end_ + 1)
        (if (start' <=? end_)%N then c :: pending' else []) e'
  end.

Definition write_double_quoted (split : bool) (indent : option N)
    (text : pystr) (e : emitter) : emitter :=
  write_indicator dq false false false
    (double_loop split indent (len text) text 0 0 []
       (write_indicator dq true false false e)).


(** **** Writing the nodes *)

(** [prepare_tag], with the default handles. *)
Definition prepared_tag (t : tag) : string :=
  match t with
  | TagNull => "!!null" | TagBool => "!!bool" | TagInt => "!!int"
  | TagFloat => "!!float" | TagStr => "!!str" | TagMerge => "!!merge"
  | TagTimestamp => "!!timestamp" | TagValue => "!!value"
  | TagYaml => "!!yaml"
  end.

(** [check_simple_key] for a scalar: the length counts the prepared tag. *)
Definition check_simple_key (s : scalar) : bool :=
  let a := analyze_scalar (snd s) in
  (N.of_nat (String.length (prepared_tag (fst s))) + len (snd s) <? 128)%N
  && negb (empty a) && negb (multiline a).

(** [process_tag] and [expect_scalar] for a scalar node, in a block
    context; [indent] is the indentation of the enclosing collection. *)
Definition emit_scalar (s : scalar) (indent : option N)
    (root simple_key : bool) (e : emitter) : emitter :=
  let '(t, value) := s in
  let a := analyze_scalar value in
  let implicit0 := tag_eqb t (resolve_plain value) in
  let implicit1 := tag_eqb t TagStr in
  let st := choose_scalar_style a implicit0 simple_key in
  let tagless := match st with
                 | Plain => implicit0
                 | _ => implicit1
                 end in
  let e := if tagless then e
           else write_indicator (prepared_tag t) true false false e in
  let indent := increase_indent indent true false in
  let split := negb simple_key in
  match st with
  | Plain => write_plain root split indent value e
  | SingleQuoted => write_single_quoted split indent value e
  | DoubleQuoted => write_double_quoted split indent value e
  end.

(** [expect_node]: a collection is written in block style unless it is
    empty. *)
Fixpoint emit_node (n : ynode) (indent : option N) (root mapping : bool)
    (e : emitter) {struct n} : emitter :=
  match n with
  | YScalar s => emit_scalar s indent root false e
  | YSeq [] =>
      write_indicator "]" false false false
        (write_indicator "[" true true false e)
  | YSeq items =>
      let indentless := mapping && negb (indention e) in
      let indent := increase_indent indent false indentless in
      (fix block_sequence (l : list ynode) (e : emitter) : emitter :=
         match l with
         | [] => e
         | x :: r =>
             block_sequence r
               (emit_node x indent false false
                  (write_indicator "-" true false true
                     (write_indent indent e)))
         end) items e
  | YMap [] =>
      write_indicator "}" false false false
        (write_indicator "{" true true false e)
  | YMap pairs =>
      let indent := increase_indent indent false false in
      (fix block_mapping (l : list (scalar * ynode)) (e : emitter) : emitter :=
         match l with
         | [] => e
         | (k, v) :: r =>
             let e := write_indent indent e in
             let e :=
               if check_simple_key k then
                 write_indicator ":" false false false
                   (emit_scalar k indent false true e)
               else
                 write_indicator ":" true false true
                   (write_indent indent
                      (emit_scalar k indent false false
                         (write_indicator "?" true false true e))) in
             block_mapping r (emit_node v indent false true e)
         end) pairs e
  end.

(** The stream of one document: no document start marker is written; the
    document ends with a line break, and with the marker [...] after a plain
    scalar at the root. *)
Definition emit_document (n : ynode) : emitter :=
  let e := emit_node n None true false start_emitter in
  let e := write_indent None e in
  if open_ended e then
    write_indent None (write_indicator "..." true false false e)
  else e.

Definition written (e : emitter) : string :=
  fold_left (fun s c => String c s) (out e) EmptyString.

End Yaml.

(** [yaml.safe_dump(v, f, sort_keys=False, default_flow_style=False)], as
    the text written to [f]. *)
Definition safe_dump (v : pyval) : string :=
  Yaml.written (Yaml.emit_document (Yaml.represent v)).

(** ** The methods of [SuiCIGenerator] that touch the file system *)

(** [any(l)] for a list of paths: a path object is true. *)
Definition any (l : list Path) : bool := existsb (fun _ => true) l.

Definition detect_project_structure (self : SuiCIGenerator) : M pyval :=
  has_move_toml <- Path_exists (project_root self // "Move.toml")%path ;;
  tests <- Path_glob (project_root self // "tests")%path "*.move" ;;
  sources <- Path_glob (project_root self // "sources")%path "*.move" ;;
  let structure := dict [
    ("has_move_toml", PBool has_move_toml);
    ("has_tests", PBool (any tests));
    ("has_sources", PBool (any sources))] in
  ret structure.

Definition save_workflow (self : SuiCIGenerator) (workflow : pyval) : M unit :=
  Path_mkdir (workflow_dir self) ;;;
  write_file (workflow_dir self // "sui-ci.yml")%path (safe_dump workflow).

(** ** [main] *)

(** The result of [parser.parse_args()]. *)
Record Namespace : Type := mkArgs {
  args_config : option pystr;          (* [--config], [None] when absent *)
  args_project_root : pystr;           (* [--project-root], default ["."] *)
  args_enable_deployment : bool        (* [--enable-deployment] *)
}.

(** The path string [s] as the system reads it: nothing is normalised. *)
Definition os_path (s : pystr) : Path :=
  match s with
  | c :: r => if (c =? slash)%N
              then {| anchor := Slash; parts := split_on slash r |}
              else {| anchor := Relative; parts := split_on slash s |}
  | [] => {| anchor := Relative; parts := [[]] |}
  end.

Definition hashable (v : pyval) : option pykey :=
  match v with
  | PNone => Some KNone
  | PBool b => Some (KBool b)
  | PInt z => Some (KInt z)
  | PStr s => Some (KStr s)
  | PList _ | PDict _ => None
  end.

Definition value_of_key (k : pykey) : pyval :=
  match k with
  | KNone => PNone
  | KBool b => PBool b
  | KInt z => PInt z
  | KStr s => PStr s
  end.

(** An element of the sequence given to [dict.update] must be an iterable
    of two items, the first of them hashable. *)
Definition key_value (x : pyval) : result (pykey * pyval) :=
  match x with
  | PList [a; b] =>
      match hashable a with
      | Some k => Ok (k, b)
      | None => Raise TypeError
      end
  | PStr [a; b] => Ok (KStr [a], PStr [b])
  | PDict [(a, _); (b, _)] => Ok (a, value_of_key b)
  | PList _ | PStr _ | PDict _ => Raise ValueError
  | PNone | PBool _ | PInt _ => Raise TypeError
  end.

Fixpoint update_pairs (d : pydict) (l : list pyval) : result pydict :=
  match l with
  | [] => Ok d
  | x :: rest =>
      match key_value x with
      | Ok (k, v) => update_pairs (dict_set d k v) rest
      | Raise e => Raise e
      end
  end.

(** [d.update(other)] for any value [other]. *)
Definition update (d : pydict) (other : pyval) : result pydict :=
  match other with
  | PDict o => Ok (dict_update d o)
  | PList l => update_pairs d l
  | PStr [] => Ok d
  | PStr _ => Raise ValueError
  | PNone | PBool _ | PInt _ => Raise TypeError
  end.

Section Main.

(** [json.load] on a file of the given content: the value, or [None] when
    it raises (the content is not text in the encoding of the locale, or
    the text is not a JSON document). *)
Variable json_loads : string -> option pyval.

(** The method [generate_workflow] of the version at hand. *)
Variable generate_workflow : SuiCIGenerator -> pyval.

(** Lines 370 to 377 of [src/generate_ci.py]: the configuration. *)
Definition build_config (args : Namespace) : M pydict :=
  let config := [
    (KStr (u "project_root"), PStr (args_project_root args));
    (KStr (u "enable_deployment"), PBool (args_enable_deployment args))] in
  match args_config args with
  | Some (c :: s) =>
      text <- read_file (os_path (c :: s)) ;;
      match json_loads text with
      | Some v => lift (update config v)
      | None => raise ValueError
      end
  | Some [] | None => ret config
  end.

Definition main (args : Namespace) : M unit :=
  config <- build_config args ;;
  generator <- lift (__init__ config) ;;
  let workflow := generate_workflow generator in
  save_workflow generator workflow ;;;
  print "Successfully generated CI/CD workflow at .github/workflows/sui-ci.yml".

End Main.

(** ** Reading the written text *)

(** Whether [p] occurs in [s] as a run of consecutive characters. *)
Fixpoint occurs (p s : string) : bool :=
  String.prefix p s ||
  match s with
  | EmptyString => false
  | String _ s' => occurs p s'
  end.

(** The guard of the deployment: a push to the main branch. *)
Definition deploy_guard : string :=
  "github.ref == 'refs/heads/main' && github.event_name == 'push'".

(** The steps of a job, and the step of a given name. *)
Definition steps (job : pyval) : list pyval :=
  match item job "steps" with
  | Some (PList l) => l
  | _ => []
  end.

Definition step (job : pyval) (name : string) : option pyval :=
  find (fun s => match item s "name" with
                 | Some (PStr n) => pystr_eqb n (u name)
                 | _ => false
                 end) (steps job).

(** ** Configurations that differ in one field *)

Definition differ_only_in (k : pykey) (c1 c2 : pydict) : Prop :=
  forall k', key_eqb k k' = false -> dict_get c1 k' = dict_get c2 k'.

(** ** Sample inputs *)

(** A JSON document, and a reader that knows this document only. *)
Definition sample_json : string := D ["{"; "enable_deployment"; ": true}"].

Definition sample_loads (text : string) : option pyval :=
  if String.eqb text sample_json
  then Some (dict [("enable_deployment", PBool true)])
  else None.

(** A root directory with an empty project [demo], a populated project
    [contracts], a configuration file and a file that is not JSON; the
    working directory is the root. *)
Definition sample_world : world :=
  {| root := Dir [
       (u "demo", Dir []);
       (u "contracts", Dir [
          (u "Move.toml", File "[package]");
          (u "sources", Dir [(u "counter.move", File "module counter {}")]);
          (u "tests", Dir [(u "counter_tests.move", File "module counter_tests {}")])]);
       (u "config.json", File sample_json);
       (u "notes.txt", File "{")];
     cwd := [];
     stdout := [] |}.

Definition sample_args (config : option string) (project_root : string)
    (enable_deployment : bool) : Namespace :=
  {| args_config := option_map u config;
     args_project_root := u project_root;
     args_enable_deployment := enable_deployment |}.

(** The generator of the project root [s], nothing else configured. *)
Definition generator_at (s : pystr) : SuiCIGenerator :=
  {| config := [(KStr (u "project_root"), PStr s)];
     project_root := Path_of s;
     workflow_dir := (Path_of s // ".github" // "workflows")%path |}.

(** A name of 256 bytes, one more than [NAME_MAX]. *)
Definition long_name : pystr := repeat 97%N 256.

(** Whether there is a file somewhere in the tree. *)
Fixpoint has_file (n : node) : bool :=
  match n with
  | File _ => true
  | Dir es => existsb (fun e => has_file (snd e)) es
  end.

(** A project [proj] made of directories only: [Move.toml], [x.move] in
    [tests] and [.move] in [sources] are empty directories. *)
Definition dirs_only_world : world :=
  {| root := Dir [
       (u "proj", Dir [
          (u "Move.toml", Dir []);
          (u "tests", Dir [(u "x.move", Dir [])]);
          (u "sources", Dir [(u ".move", Dir [])])])];
     cwd := [];
     stdout := [] |}.

(** ** What there is to detect *)

(** The entries of the directory the path leads to, when it leads to a
    directory. *)
Definition directory (w : world) (p : Path) : option (list (pystr * node)) :=
  match resolve w p with
  | Ok d => match get (root w) d with
            | Some (Dir es) => Some es
            | _ => None
            end
  | Raise _ => None
  end.

(** Whether the directory has an entry [x]. *)
Definition has_entry (x : string) (dir : option (list (pystr * node))) : bool :=
  match dir with
  | Some es => match lookup (u x) es with Some _ => true | None => false end
  | None => false
  end.

(** Whether the directory has a subdirectory [x] with an entry whose name
    matches [*.move]. *)
Definition has_move_files (x : string) (dir : option (list (pystr * node)))
  : bool :=
  match dir with
  | Some es =>
      match lookup (u x) es with
      | Some (Dir sub) => existsb (fun e => fnmatch (u "*.move") (fst e)) sub
      | _ => false
      end
  | None => false
  end.

(** ** Block style *)

(** Whether the node has no empty collection: the emitter writes a
    collection in flow style, between brackets, only when it is empty. *)
Fixpoint all_block (n : Yaml.ynode) : bool :=
  match n with
  | Yaml.YScalar _ => true
  | Yaml.YSeq [] => false
  | Yaml.YSeq items => forallb all_block items
  | Yaml.YMap [] => false
  | Yaml.YMap pairs => forallb (fun kv => all_block (snd kv)) pairs
  end.

(** The keys of a mapping node, in the order they are written. *)
Definition mapping_keys (n : Yaml.ynode) : list Yaml.scalar :=
  match n with
  | Yaml.YMap pairs => map fst pairs
  | _ => []
  end.

(** ** Reading a written text back

    A reader of the block style, to tell what a written text says: block
    mappings ([key: value] lines, nested by indentation), block sequences
    ([- ] items, at the indentation of their key or deeper), and scalars
    that are plain on one line, single-quoted on one line, or double-quoted
    with escapes and escaped line breaks.  A plain scalar is read as the type
    the resolver gives it, a quoted one as a string.  Everything else (flow
    collections in brackets or braces, folded plain text, anchors, tags,
    comments, two equal keys in a mapping) is not read: the result is
    [None]. *)
Module Reader.

(** The characters of a text written in ASCII. *)
Definition text_of (s : string) : pystr :=
  map N_of_ascii (list_ascii_of_string s).

(** The line at the head of [s], and what follows its line break. *)
Fixpoint take_line (s : pystr) : pystr * pystr :=
  match s with
  | [] => ([], [])
  | c :: r =>
      if (c =? 10)%N then ([], r)
      else let '(l, t) := take_line r in (c :: l, t)
  end.

Fixpoint indent (s : pystr) : nat :=
  match s with
  | 32%N :: r => S (indent r)
  | _ => O
  end.

(** Whether a line with a sequence item starts here, at the indentation [n]. *)
Definition starts_item (s : pystr) (n : nat) : bool :=
  Nat.eqb (indent s) n &&
  match skipn n s with
  | 45%N :: 32%N :: _ => true
  | _ => false
  end.

(** Whether [a] is followed by [b] somewhere in [t]. *)
Fixpoint has_pair (a b : N) (t : pystr) : bool :=
  match t with
  | c :: ((d :: _) as r) => ((c =? a)%N && (d =? b)%N) || has_pair a b r
  | _ => false
  end.

(** The characters no plain scalar starts with. *)
Definition indicator (c : N) : bool :=
  existsb (N.eqb c) (u "[]{},#&*!|>'%@`") || (c =? 34)%N.

(** A text that can stand as a plain scalar on one line. *)
Definition plain_ok (t : pystr) : bool :=
  match t with
  | [] => false
  | c :: r =>
      negb (indicator c) && negb (c =? 32)%N &&
      negb (((c =? 45)%N || (c =? 63)%N || (c =? 58)%N) &&
            match r with [] => true | d :: _ => (d =? 32)%N end) &&
      negb (has_pair 58 32 t) && negb (has_pair 32 35 t) &&
      negb (existsb (N.eqb 9) t) &&
      forallb (fun x => (x <? 128)%N) t &&
      match last t 0%N with 32%N | 58%N => false | _ => true end
  end.

(** The decimal numbers [0], [7], [-12], [+3]. *)
Fixpoint digits (t : pystr) (acc : Z) : option Z :=
  match t with
  | [] => Some acc
  | c :: r =>
      if (48 <=? c)%N && (c <=? 57)%N
      then digits r (10 * acc + Z.of_N (c - 48))%Z
      else None
  end.

Definition natural (t : pystr) : option Z :=
  match t with
  | [] => None
  | [48%N] => Some 0%Z
  | 48%N :: _ => None
  | _ => digits t 0
  end.

Definition decimal (t : pystr) : option Z :=
  match t with
  | 45%N :: r => option_map Z.opp (natural r)
  | 43%N :: r => natural r
  | _ => natural t
  end.

(** The plain texts for true: [yes], [true], [on], in any of their cases. *)
Definition truthy (t : pystr) : bool :=
  match t with
  | c :: d :: _ =>
      (c =? 121)%N || (c =? 89)%N || (c =? 116)%N || (c =? 84)%N ||
      (((c =? 111)%N || (c =? 79)%N) && ((d =? 110)%N || (d =? 78)%N))
  | _ => false
  end.

(** The value of a plain scalar. *)
Definition typed (t : pystr) : option pyval :=
  match Yaml.resolve_plain t with
  | Yaml.TagStr => Some (PStr t)
  | Yaml.TagNull => Some PNone
  | Yaml.TagBool => Some (PBool (truthy t))
  | Yaml.TagInt => option_map PInt (decimal t)
  | _ => None
  end.

Definition hex_value (c : N) : option N :=
  if (48 <=? c)%N && (c <=? 57)%N then Some (c - 48)%N
  else if (65 <=? c)%N && (c <=? 70)%N then Some (c - 55)%N
  else if (97 <=? c)%N && (c <=? 102)%N then Some (c - 87)%N
  else None.

Fixpoint hex_number (t : pystr) (acc : N) : option N :=
  match t with
  | [] => Some acc
  | c :: r =>
      match hex_value c with
      | Some d => hex_number r (16 * acc + d)%N
      | None => None
      end
  end.

(** The character an escape of one letter stands for. *)
Definition escaped (c : N) : option N :=
  match c with
  | 48%N => Some 0%N | 97%N => Some 7%N | 98%N => Some 8%N | 116%N => Some 9%N
  | 110%N => Some 10%N | 118%N => Some 11%N | 102%N => Some 12%N
  | 114%N => Some 13%N | 101%N => Some 27%N | 32%N => Some 32%N
  | 34%N => Some 34%N | 47%N => Some 47%N | 92%N => Some 92%N
  | 78%N => Some 133%N | 95%N => Some 160%N
  | 76%N => Some 8232%N | 80%N => Some 8233%N
  | _ => None
  end.

(** A double-quoted scalar, from after its opening quote: the text, and
    what follows the closing quote.  After an escaped line break the spaces
    that start the next line are skipped. *)
Fixpoint double_quoted (s : pystr) (skipping : bool) (acc : pystr)
  : option (pystr * pystr) :=
  match s with
  | [] => None
  | c :: r =>
      if skipping && (c =? 32)%N then double_quoted r true acc
      else if (c =? 34)%N then Some (rev_append acc [], r)
      else if (c =? 10)%N || (128 <=? c)%N then None
      else if (c =? 92)%N then
        match r with
        | [] => None
        | 10%N :: r' => double_quoted r' true acc
        | 120%N :: a :: b :: r' =>
            match hex_number [a; b] 0 with
            | Some v => double_quoted r' false (v :: acc)
            | None => None
            end
        | 117%N :: a :: b :: c' :: d :: r' =>
            match hex_number [a; b; c'; d] 0 with
            | Some v => double_quoted r' false (v :: acc)
            | None => None
            end
        | 85%N :: a :: b :: c' :: d :: e :: f :: g :: h :: r' =>
            match hex_number [a; b; c'; d; e; f; g; h] 0 with
            | Some v => double_quoted r' false (v :: acc)
            | None => None
            end
        | e :: r' =>
            match escaped e with
            | Some v => double_quoted r' false (v :: acc)
            | None => None
            end
        end
      else double_quoted r false (c :: acc)
  end.

(** A single-quoted scalar on one line: two quotes stand for one. *)
Fixpoint single_quoted (s : pystr) (acc : pystr) : option (pystr * pystr) :=
  match s with
  | [] => None
  | c :: r =>
      if (c =? 39)%N then
        match r with
        | 39%N :: r' => single_quoted r' (39%N :: acc)
        | _ => Some (rev_append acc [], r)
        end
      else if (c =? 10)%N || (128 <=? c)%N then None
      else single_quoted r (c :: acc)
  end.

(** The line ends here: what follows its line break. *)
Definition end_of_line (s : pystr) : option pystr :=
  match s with
  | [] => Some []
  | 10%N :: r => Some r
  | _ => None
  end.

Definition quoted (s : pystr) : option (pystr * pystr) :=
  match s with
  | 34%N :: r => double_quoted r false []
  | 39%N :: r => single_quoted r []
  | _ => None
  end.

Definition is_quote (s : pystr) : bool :=
  match s with
  | 34%N :: _ | 39%N :: _ => true
  | _ => false
  end.

(** A scalar that takes the rest of the line: its value, and the start of
    the next line. *)
Definition scalar (s : pystr) : option (pyval * pystr) :=
  if is_quote s then
    match quoted s with
    | Some (t, r) => option_map (fun r' => (PStr t, r')) (end_of_line r)
    | None => None
    end
  else
    let '(line, rest) := take_line s in
    if plain_ok line then option_map (fun v => (v, rest)) (typed line)
    else None.

(** The plain text before the first colon that a space or the end of the
    line follows, and what follows that colon. *)
Fixpoint plain_key (s : pystr) (acc : pystr) : option (pystr * pystr) :=
  match s with
  | [] => None
  | c :: r =>
      if (c =? 10)%N then None
      else if (c =? 58)%N &&
              match r with [] => true | d :: _ => (d =? 32)%N || (d =? 10)%N end
      then Some (rev_append acc [], r)
      else plain_key r (c :: acc)
  end.

(** A key with its colon: the key, and what follows the colon. *)
Definition key (s : pystr) : option (pykey * pystr) :=
  if is_quote s then
    match quoted s with
    | Some (t, 58%N :: r) => Some (KStr t, r)
    | _ => None
    end
  else
    match plain_key s [] with
    | Some (t, r) =>
        if plain_ok t then
          match typed t with
          | Some v => option_map (fun k => (k, r)) (hashable v)
          | None => None
          end
        else None
    | None => None
    end.

(** What is read: a node of any kind, the entries of a mapping (the
    first of them may start in the line of a sequence item), or the items of
    a sequence. *)
Inductive mode : Type := Node | Entries (first : bool) | Items.

(** Whether an entry of the mapping at the indentation [n] starts here. *)
Definition starts_entry (s : pystr) (n : nat) : bool :=
  Nat.eqb (indent s) n && negb (starts_item s n) &&
  match skipn n s with
  | [] | 10%N :: _ => false
  | _ => true
  end.

(** [s] is at the start of a line ([Entries true]: after the hyphen of an
    item); [n] is the indentation of the entries or items; [entries] and
    [items] are those read so far, last first. *)
Fixpoint read (fuel : nat) (m : mode) (n : nat) (s : pystr)
    (entries : pydict) (items : list pyval) : option (pyval * pystr) :=
  match fuel with
  | O => None
  | S fuel =>
      match m with
      | Node =>
          if starts_item s n then read fuel Items n s [] []
          else read fuel (Entries false) n s [] []
      | Entries first =>
          if first || starts_entry s n then
            match key (if first then s else skipn n s) with
            | Some (k, after) =>
                match dict_get entries k with
                | Some _ => None
                | None =>
                    match
                      match after with
                      | 32%N :: value => scalar value
                      | 10%N :: below =>
                          if Nat.ltb n (indent below)
                          then read fuel Node (indent below) below [] []
                          else if starts_item below n
                          then read fuel Items n below [] []
                          else None
                      | _ => None
                      end
                    with
                    | Some (v, next) =>
                        read fuel (Entries false) n next ((k, v) :: entries) []
                    | None => None
                    end
                end
            | None => None
            end
          else
            match entries with
            | [] => None
            | _ => Some (PDict (rev_append entries []), s)
            end
      | Items =>
          if starts_item s n then
            let item := skipn (n + 2) s in
            match
              match key item with
              | Some _ => read fuel (Entries true) (n + 2) item [] []
              | None => scalar item
              end
            with
            | Some (v, next) => read fuel Items n next [] (v :: items)
            | None => None
            end
          else
            match items with
            | [] => None
            | _ => Some (PList (rev_append items []), s)
            end
      end
  end.

(** The document a text holds, when the whole text is read. *)
Definition load (text : string) : option pyval :=
  let s := text_of text in
  match read (S (List.length s)) Node 0 s [] [] with
  | Some (v, []) => Some v
  | _ => None
  end.

End Reader.

(** ** Notions the proofs use *)

(** The text of the given lines, each with its line break. *)
Definition text_lines (ls : list string) : string :=
  String.concat nl ls ++ nl.

(** The representative of a key under [==]. *)
Definition key_norm (k : pykey) : pykey :=
  match k with
  | KBool b => KInt (if b then 1 else 0)
  | _ => k
  end.

(** Every directory of [r] is a directory of [r']. *)
Definition dirs_kept (r r' : node) : Prop :=
  forall x es, get r x = Some (Dir es) -> exists es', get r' x = Some (Dir es').

(** Nothing, or a file. *)
Definition not_a_dir (o : option node) : Prop :=
  match o with Some (Dir _) => False | _ => True end.

(** A name that is looked up: not empty, not [.] and not [..], and within
    [NAME_MAX]. *)
Definition regular (x : pystr) : Prop :=
  is_component x = true /\ pystr_eqb x dotdot = false /\ short x = true.

(** The text of the path is shorter than [PATH_MAX]. *)
Definition fits (p : Path) : Prop := (path_bytes p < PATH_MAX)%N.

(** Whether the path is beyond a limit of the system: its text has
    [PATH_MAX] bytes or more, or one of its names more than [NAME_MAX]. *)
Definition too_long (p : Path) : bool :=
  (PATH_MAX <=? path_bytes p)%N || negb (forallb short (parts p)).

(** A world that keeps the directories and the working directory keeps the
    places paths lead to. *)
Definition extends (w w' : world) : Prop :=
  dirs_kept (root w) (root w') /\ cwd w' = cwd w /\ stdout w' = stdout w.

(** The name of the output file. *)
Definition output_name : pystr := u "sui-ci.yml".

(** The line [main] prints at the end. *)
Definition success_message : string :=
  "Successfully generated CI/CD workflow at .github/workflows/sui-ci.yml".

(** The files of [r] are the files of [r'], with the same content. *)
Definition same_files (r r' : node) : Prop :=
  forall x s, get r x = Some (File s) <-> get r' x = Some (File s).

(** A file, or an empty directory. *)
Definition leaf (n : node) : Prop :=
  match n with File _ | Dir [] => True | Dir (_ :: _) => False end.

(** The configuration [main] builds when there is no [--config], and the
    generator of it. *)
Definition command_line_config (args : Namespace) : pydict :=
  [(KStr (u "project_root"), PStr (args_project_root args));
   (KStr (u "enable_deployment"), PBool (args_enable_deployment args))].

Definition generator_of (args : Namespace) : SuiCIGenerator :=
  {| config := command_line_config args;
     project_root := Path_of (args_project_root args);
     workflow_dir :=
       (Path_of (args_project_root args) // ".github" // "workflows")%path |}.

(** The output file of a generator. *)
Definition output_file (self : SuiCIGenerator) : Path :=
  (workflow_dir self // "sui-ci.yml")%path.

(** ** The two programs *)

Definition main_staged (json_loads : string -> option pyval) : Namespace -> M unit :=
  main json_loads Staged.generate_workflow.

Definition main_single (json_loads : string -> option pyval) : Namespace -> M unit :=
  main json_loads Single.generate_workflow.

(** * Theorems *)

(** A fact about a document or a text that evaluation settles. *)
Ltac by_computation := vm_compute; reflexivity.

(** ** Keys and dicts *)

Lemma key_eqb_norm (a b : pykey) :
  key_eqb a b = true <-> key_norm a = key_norm b.
Proof.
  destruct a as [|x|x|x], b as [|y|y|y]; simpl;
    try (split; [discriminate | intros H; discriminate H || inversion H]);
    try (split; reflexivity).
  - destruct x, y; simpl; split; congruence.
  - rewrite Z.eqb_eq. destruct x; split; congruence.
  - rewrite Z.eqb_eq. destruct y; split; congruence.
  - rewrite Z.eqb_eq. split; congruence.
  - rewrite pystr_eqb_eq. split; congruence.
Qed.

Lemma key_eqb_refl (a : pykey) : key_eqb a a = true.
Proof. now apply key_eqb_norm. Qed.

Lemma key_eqb_neq (a b : pykey) :
  key_eqb a b = false <-> key_norm a <> key_norm b.
Proof.
  rewrite <- key_eqb_norm. destruct (key_eqb a b); split; congruence.
Qed.

Lemma dict_get_set (d : pydict) (k k' : pykey) (v : pyval) :
  dict_get (dict_set d k v) k' =
  if key_eqb k k' then Some v else dict_get d k'.
Proof.
  induction d as [|[k0 v0] rest IH]; simpl.
  - reflexivity.
  - destruct (key_eqb k0 k) eqn:E0; simpl.
    + apply key_eqb_norm in E0.
      destruct (key_eqb k k') eqn:E.
      * apply key_eqb_norm in E.
        assert (H : key_eqb k0 k' = true) by (apply key_eqb_norm; congruence).
        now rewrite H.
      * apply key_eqb_neq in E.
        assert (H : key_eqb k0 k' = false) by (apply key_eqb_neq; congruence).
        now rewrite H.
    + destruct (key_eqb k0 k') eqn:E1.
      * apply key_eqb_neq in E0. apply key_eqb_norm in E1.
        assert (H : key_eqb k k' = false) by (apply key_eqb_neq; congruence).
        now rewrite H.
      * apply IH.
Qed.

(** Keys that [other] does not hold keep their value in an update. *)
Lemma dict_update_other (other d : pydict) (k : pykey) :
  dict_get other k = None ->
  dict_get (dict_update d other) k = dict_get d k.
Proof.
  unfold dict_update. revert d.
  induction other as [|[k0 v0] rest IH]; intros d H; simpl in *.
  - reflexivity.
  - destruct (key_eqb k0 k) eqn:E; [discriminate|].
    rewrite IH by assumption. rewrite dict_get_set. now rewrite E.
Qed.

Lemma existsb_key_none (d : pydict) (k0 k : pykey) :
  existsb (fun kv => key_eqb (fst kv) k0) d = false ->
  key_eqb k0 k = true ->
  dict_get d k = None.
Proof.
  intros H E. apply key_eqb_norm in E.
  induction d as [|[k1 v1] rest IH]; simpl in *.
  - reflexivity.
  - apply orb_false_iff in H. destruct H as [H1 H2].
    apply key_eqb_neq in H1.
    assert (A : key_eqb k1 k = false) by (apply key_eqb_neq; congruence).
    rewrite A. auto.
Qed.

(** The value [other] has for a key is its value after the update. *)
Lemma dict_update_wins (other d : pydict) (k : pykey) (v : pyval) :
  dict_wf other = true ->
  dict_get other k = Some v ->
  dict_get (dict_update d other) k = Some v.
Proof.
  unfold dict_update. revert d.
  induction other as [|[k0 v0] rest IH]; intros d W H; simpl in *.
  - discriminate.
  - apply andb_true_iff in W. destruct W as [W1 W2].
    apply negb_true_iff in W1.
    destruct (key_eqb k0 k) eqn:E.
    + injection H as <-.
      assert (N : dict_get rest k = None) by (eapply existsb_key_none; eauto).
      pose proof (dict_update_other (other := rest) (dict_set d k0 v0) N) as U.
      unfold dict_update in U. rewrite U, dict_get_set. now rewrite E.
    + now apply IH.
Qed.

(** ** The world is not touched by reading *)

Lemma os_stat_world (p : Path) (w : world) : snd (os_stat p w) = w.
Proof.
  unfold os_stat. destruct (resolve w p); [destruct (get (root w) a)|]; reflexivity.
Qed.

Lemma read_file_world (p : Path) (w : world) : snd (read_file p w) = w.
Proof.
  unfold read_file, bind. pose proof (os_stat_world p w) as H.
  destruct (os_stat p w) as [[n|e] w']; simpl in *; subst; [destruct n|]; reflexivity.
Qed.

Lemma build_config_world json_loads (args : Namespace) (w : world) :
  snd (build_config json_loads args w) = w.
Proof.
  unfold build_config.
  destruct (args_config args) as [[|c s]|]; try reflexivity.
  unfold bind. pose proof (read_file_world (os_path (c :: s)) w) as H.
  destruct (read_file (os_path (c :: s)) w) as [[text|e] w']; simpl in *; subst;
    [destruct (json_loads text)|]; reflexivity.
Qed.


Lemma init_default_config : __init__ default_config = Ok default_generator.
Proof. reflexivity. Qed.

(** C1, as stated, fails on [src/generate_ci.py]: the document of the
    one-job version has a single stage, [build-and-deploy], so it is not a
    document with four stages. *)
Lemma C1_single_job_document :
  stage_names (Single.generate_workflow default_generator)
    = Some (names ["build-and-deploy"]) /\
  ~ four_stage_pipeline (Single.generate_workflow default_generator).
Proof.
  split.
  - vm_compute. reflexivity.
  - intros [H _]. vm_compute in H. discriminate H.
Qed.

(** C1 (amended): for every generator, the document of the four-job version
    has exactly the stages build, test, security and deploy, in this order;
    test and security each name build as their dependency and deploy lists
    test and security.  The document of the one-job version has exactly one
    stage, [build-and-deploy], which has no [needs] field. *)
Theorem C1_stages (self : SuiCIGenerator) :
  four_stage_pipeline (Staged.generate_workflow self) /\
  stage (Staged.generate_workflow self) "build"
    = Some (Staged.generate_build_job self) /\
  item (Staged.generate_build_job self) "needs" = None /\
  stage_names (Single.generate_workflow self) = Some (names ["build-and-deploy"]) /\
  stage (Single.generate_workflow self) "build-and-deploy"
    = Some (Single.generate_env_setup self) /\
  item (Single.generate_env_setup self) "needs" = None.
Proof.
  repeat split; try by_computation;
    eexists; (split; [by_computation | ]); repeat split; by_computation.
Qed.

(** C10: in the four-job version the [needs] field of the test job and of
    the security job is the bare string [build], and the [needs] field of the
    deploy job is the list of the two strings [test] and [security], whatever
    the generator. *)
Theorem C10_needs_shapes (self : SuiCIGenerator) :
  item (Staged.generate_test_job self) "needs" = Some (str "build") /\
  item (Staged.generate_security_job self) "needs" = Some (str "build") /\
  item (Staged.generate_deploy_job self) "needs"
    = Some (PList [str "test"; str "security"]).
Proof. repeat split; vm_compute; reflexivity. Qed.

(** ** The directory tree *)

Lemma lookup_bind_same (es : list (pystr * node)) (x : pystr) (n : node) :
  lookup x (bind_entry es x n) = Some n.
Proof.
  induction es as [|[y m] rest IH]; simpl.
  - now rewrite pystr_eqb_refl.
  - destruct (pystr_eqb y x) eqn:E; simpl; rewrite E; auto.
Qed.

Lemma lookup_bind_other (es : list (pystr * node)) (x y : pystr) (n : node) :
  x <> y -> lookup y (bind_entry es x n) = lookup y es.
Proof.
  intros N. induction es as [|[z m] rest IH]; simpl.
  - destruct (pystr_eqb x y) eqn:E; [apply pystr_eqb_eq in E; contradiction | reflexivity].
  - destruct (pystr_eqb z x) eqn:E; simpl.
    + apply pystr_eqb_eq in E. subst z.
      destruct (pystr_eqb x y) eqn:E'; [apply pystr_eqb_eq in E'; contradiction | reflexivity].
    + now rewrite IH.
Qed.

Lemma bind_entry_same (es : list (pystr * node)) (x : pystr) (n : node) :
  lookup x es = Some n -> bind_entry es x n = es.
Proof.
  induction es as [|[y m] rest IH]; simpl; [discriminate|].
  destruct (pystr_eqb y x) eqn:E.
  - now intros [= ->].
  - intros H. now rewrite IH.
Qed.

Lemma get_app (r : node) (a b : list pystr) :
  get r (a ++ b) = match get r a with
                   | Some n => get n b
                   | None => None
                   end.
Proof.
  revert r. induction a as [|x a IH]; intros r; simpl.
  - reflexivity.
  - destruct r as [s|es]; [reflexivity|].
    destruct (lookup x es); auto.
Qed.

Lemma get_put_same (c : list pystr) (r r' new : node) :
  put r c new = Some r' -> get r' c = Some new.
Proof.
  revert r r'. induction c as [|x rest IH]; intros r r'; simpl.
  - now intros [= ->].
  - destruct r as [s|es]; [discriminate|].
    destruct rest as [|y rest'].
    + intros [= <-]. simpl. now rewrite lookup_bind_same.
    + destruct (lookup x es) as [ch|]; [|discriminate].
      destruct (put ch (y :: rest') new) as [ch'|] eqn:P; [|discriminate].
      intros [= <-]. simpl get at 1. rewrite lookup_bind_same.
      now apply (IH ch).
Qed.

(** Putting back what is there changes nothing. *)
Lemma put_same (c : list pystr) (r n : node) :
  get r c = Some n -> put r c n = Some r.
Proof.
  revert r. induction c as [|x rest IH]; intros r; simpl.
  - now intros [= ->].
  - destruct r as [s|es]; [discriminate|].
    destruct (lookup x es) as [ch|] eqn:L; [|discriminate].
    destruct rest as [|y rest'].
    + simpl. intros [= ->]. now rewrite bind_entry_same.
    + intros G. rewrite (IH ch G). now rewrite bind_entry_same.
Qed.

(** A new entry can be put into an existing directory. *)
Lemma put_child (d : list pystr) (x : pystr) (r new : node)
    (es : list (pystr * node)) :
  get r d = Some (Dir es) -> exists r', put r (d ++ [x]) new = Some r'.
Proof.
  revert r. induction d as [|y d IH]; intros r; simpl.
  - intros [= ->]. eauto.
  - destruct r as [s|es0]; [discriminate|].
    destruct (lookup y es0) as [ch|] eqn:L; [|discriminate].
    intros G. destruct (IH ch G) as [ch' P]. rewrite P.
    destruct (d ++ [x]) eqn:A; [now destruct d|]. eauto.
Qed.

Lemma dirs_kept_refl (r : node) : dirs_kept r r.
Proof. intros x es H. eauto. Qed.

Lemma dirs_kept_trans (a b c : node) :
  dirs_kept a b -> dirs_kept b c -> dirs_kept a c.
Proof. intros H1 H2 x es G. destruct (H1 x es G) as [es' G']. eauto. Qed.

Lemma put_keeps_dirs (c : list pystr) (r r' new : node) :
  put r c new = Some r' -> not_a_dir (get r c) -> dirs_kept r r'.
Proof.
  revert r r'. induction c as [|x rest IH]; intros r r'; simpl.
  - intros _ N y es G. destruct y; simpl in G.
    + injection G as ->. contradiction.
    + destruct r as [s|es0]; [discriminate|]. contradiction.
  - destruct r as [s|es0]; [discriminate|].
    intros P N y es G.
    assert (Q : exists ch', r' = Dir (bind_entry es0 x ch') /\
                (rest = [] -> ch' = new) /\
                (rest <> [] -> exists ch, lookup x es0 = Some ch /\ put ch rest new = Some ch')).
    { destruct rest as [|z rest'].
      - injection P as <-. eexists. split; [reflexivity|]. split; congruence.
      - destruct (lookup x es0) as [ch|]; [|discriminate].
        destruct (put ch (z :: rest') new) as [ch'|] eqn:P'; [|discriminate].
        injection P as <-. exists ch'. split; [reflexivity|].
        split; [discriminate|]. intros _. eauto. }
    destruct Q as [ch' [-> [Q1 Q2]]].
    destruct y as [|y0 ys]; simpl.
    + eauto.
    + destruct (list_eq_dec N.eq_dec x y0) as [<-|D].
      * rewrite lookup_bind_same. simpl in G.
        destruct (lookup x es0) as [ch|] eqn:L; [|discriminate].
        destruct rest as [|z rest'].
        -- simpl in N. exfalso.
           destruct ys; simpl in G.
           ++ injection G as ->. exact N.
           ++ destruct ch; [discriminate | exact N].
        -- destruct Q2 as [ch0 [L0 P0]]; [discriminate|].
           assert (ch0 = ch) by congruence. subst ch0.
           eapply IH; eauto.
      * rewrite lookup_bind_other by assumption. simpl in G. eauto.
Qed.

(** *** Resolution *)

Lemma walk_snoc (r : node) (ps cur : list pystr) (x : pystr) :
  regular x ->
  walk r cur (ps ++ [x]) =
  match walk r cur ps with
  | Ok d => match get r d with
            | Some (Dir _) => Ok (d ++ [x])
            | Some (File _) => Raise NotADirectoryError
            | None => Raise FileNotFoundError
            end
  | Raise e => Raise e
  end.
Proof.
  intros [Hc [Hd Hs]]. revert cur.
  induction ps as [|p rest IH]; intros cur; simpl.
  - destruct (get r cur) as [[s|es]|] eqn:G; try reflexivity.
    now rewrite Hd, Hc, Hs, G.
  - destruct (get r cur) as [[s|es]|]; try reflexivity.
    destruct (pystr_eqb p dotdot); [apply IH|].
    destruct (is_component p); simpl; [|apply IH].
    destruct (short p); simpl; [|reflexivity].
    destruct rest as [|p' rest'].
    + simpl. destruct (get r (cur ++ [p])) as [[s|es']|]; try reflexivity.
      now rewrite Hd, Hc, Hs.
    + apply (IH (cur ++ [p])).
Qed.

Lemma walk_kept (r r' : node) (ps cur c : list pystr) :
  dirs_kept r r' -> walk r cur ps = Ok c -> walk r' cur ps = Ok c.
Proof.
  intros K. revert cur.
  induction ps as [|p rest IH]; intros cur; simpl.
  - destruct (get r cur) as [[s|es]|] eqn:G; try discriminate.
    now destruct (K _ _ G) as [es' ->].
  - destruct (get r cur) as [[s|es]|] eqn:G; try discriminate.
    destruct (K _ _ G) as [es' ->].
    destruct (pystr_eqb p dotdot); [apply IH|].
    destruct (is_component p); simpl; [|apply IH].
    destruct (short p); simpl; [|discriminate].
    destruct rest; [auto | apply IH].
Qed.

(** Names within [NAME_MAX] are missing at worst. *)
Lemma walk_error_ignored (r : node) (ps cur : list pystr) (e : exn) :
  forallb short ps = true -> walk r cur ps = Raise e -> ignored e = true.
Proof.
  revert cur. induction ps as [|q rest IH]; intros cur S; simpl in *.
  - destruct (get r cur) as [[s|es]|]; try discriminate; now intros [= <-].
  - apply andb_true_iff in S. destruct S as [Sq S].
    destruct (get r cur) as [[s|es]|]; try (now intros [= <-]).
    destruct (pystr_eqb q dotdot); [now apply IH|].
    destruct (is_component q); simpl; [|now apply IH].
    rewrite Sq. simpl.
    destruct rest; [discriminate | now apply IH].
Qed.

Lemma too_long_false (p : Path) :
  too_long p = false <->
  (PATH_MAX <=? path_bytes p)%N = false /\ forallb short (parts p) = true.
Proof.
  unfold too_long. rewrite orb_false_iff, negb_false_iff. tauto.
Qed.

Lemma resolve_error_ignored (w : world) (p : Path) (e : exn) :
  too_long p = false -> resolve w p = Raise e -> ignored e = true.
Proof.
  intros T. apply too_long_false in T. destruct T as [T1 T2].
  unfold resolve. rewrite T1. destruct (forallb encodable (parts p)).
  - now apply walk_error_ignored.
  - now intros [= <-].
Qed.

(** *** Lengths *)

Lemma name_bytes_pos (x : pystr) : x <> [] -> (1 <= name_bytes x)%N.
Proof.
  destruct x as [|c r]; [congruence|]. intros _. simpl.
  assert (1 <= char_bytes c)%N; [|lia].
  unfold char_bytes.
  destruct (c <? 128)%N; [lia|]. destruct (c <? 2048)%N; [lia|].
  destruct ((56448 <=? c)%N && (c <=? 56575)%N); [lia|].
  destruct (c <? 65536)%N; lia.
Qed.

Lemma regular_pos (x : pystr) : regular x -> (1 <= name_bytes x)%N.
Proof.
  intros [Hc _]. apply name_bytes_pos. intros ->. discriminate Hc.
Qed.

Lemma path_bytes_snoc (a : Anchor) (ps : list pystr) (x : pystr) :
  path_bytes (mkPath a (ps ++ [x])) =
  match ps with
  | [] => (match a with Relative => 0 | Slash => 1 | DoubleSlash => 2 end
           + name_bytes x)%N
  | _ :: _ => (path_bytes (mkPath a ps) + 1 + name_bytes x)%N
  end.
Proof.
  unfold path_bytes. destruct ps as [|y r]; simpl; [reflexivity|].
  rewrite fold_left_app. simpl. lia.
Qed.

Lemma path_bytes_parent (a : Anchor) (ps : list pystr) (x : pystr) :
  regular x -> (path_bytes (mkPath a ps) <= path_bytes (mkPath a (ps ++ [x])))%N.
Proof.
  intros R. apply regular_pos in R. rewrite path_bytes_snoc.
  destruct ps; [|lia].
  unfold path_bytes, absolute. destruct a; cbn [anchor parts]; lia.
Qed.

Lemma fits_parent (a : Anchor) (ps : list pystr) (x : pystr) :
  regular x -> fits (mkPath a (ps ++ [x])) -> fits (mkPath a ps).
Proof.
  intros R F. pose proof (@path_bytes_parent a ps x R). unfold fits in *. lia.
Qed.

Lemma fits_prefix (a : Anchor) (base more : list pystr) :
  Forall regular more -> fits (mkPath a (base ++ more)) -> fits (mkPath a base).
Proof.
  induction more as [|m more IH] using rev_ind; intros R F.
  - now rewrite app_nil_r in F.
  - apply Forall_app in R. destruct R as [R Rm]. inversion Rm; subst.
    rewrite app_assoc in F. apply fits_parent in F; auto.
Qed.

Lemma fits_true (p : Path) : fits p <-> (PATH_MAX <=? path_bytes p)%N = false.
Proof. unfold fits. rewrite N.leb_gt. tauto. Qed.

Lemma resolve_fits (w : world) (p : Path) (c : list pystr) :
  resolve w p = Ok c -> fits p.
Proof.
  unfold resolve. rewrite fits_true.
  destruct (forallb encodable (parts p)); [|discriminate].
  now destruct (PATH_MAX <=? path_bytes p)%N.
Qed.

(** ** The probe *)

Lemma resolve_child (w : world) (p : Path) (x : pystr) :
  regular x -> encodable x = true ->
  fits (mkPath (anchor p) (parts p ++ [x])) ->
  resolve w (mkPath (anchor p) (parts p ++ [x])) =
  match resolve w p with
  | Ok d => match get (root w) d with
            | Some (Dir _) => Ok (d ++ [x])
            | Some (File _) => Raise NotADirectoryError
            | None => Raise FileNotFoundError
            end
  | Raise e => Raise e
  end.
Proof.
  intros R Enc F. pose proof (fits_parent R F) as Fp.
  apply fits_true in F, Fp. destruct p as [a ps]. simpl in *.
  unfold resolve. simpl. rewrite F, Fp.
  rewrite forallb_app. simpl. rewrite Enc, andb_true_r.
  destruct (forallb encodable ps); simpl; [|reflexivity].
  now apply walk_snoc.
Qed.

Lemma get_child (r : node) (d : list pystr) (x : pystr)
    (es : list (pystr * node)) :
  get r d = Some (Dir es) -> get r (d ++ [x]) = lookup x es.
Proof.
  intros G. rewrite get_app, G. simpl. now destruct (lookup x es).
Qed.

Lemma stat_child (w : world) (p : Path) (x : pystr) :
  regular x -> encodable x = true ->
  fits (mkPath (anchor p) (parts p ++ [x])) ->
  os_stat (mkPath (anchor p) (parts p ++ [x])) w =
  match directory w p with
  | Some es => match lookup x es with
               | Some n => (Ok n, w)
               | None => (Raise FileNotFoundError, w)
               end
  | None =>
      (Raise match resolve w p with
             | Ok d => match get (root w) d with
                       | Some _ => NotADirectoryError
                       | None => FileNotFoundError
                       end
             | Raise e => e
             end, w)
  end.
Proof.
  intros R Enc F. unfold os_stat, directory. rewrite resolve_child by assumption.
  destruct (resolve w p) as [d|e]; [|reflexivity].
  destruct (get (root w) d) as [[s|es]|] eqn:G; try reflexivity.
  now rewrite (get_child x G).
Qed.

(** Within the limits, [os.stat] fails only for what is missing. *)
Lemma stat_ignored (w : world) (p : Path) (e : exn) :
  too_long p = false -> fst (os_stat p w) = Raise e -> ignored e = true.
Proof.
  intros T. unfold os_stat. destruct (resolve w p) as [d|e'] eqn:R.
  - destruct (get (root w) d); simpl; [discriminate | now intros [= <-]].
  - simpl. intros [= <-]. eapply resolve_error_ignored; eauto.
Qed.

Lemma too_long_parent (a : Anchor) (ps : list pystr) (x : pystr) :
  regular x -> too_long (mkPath a (ps ++ [x])) = false ->
  too_long (mkPath a ps) = false /\ fits (mkPath a (ps ++ [x])).
Proof.
  intros R T. apply too_long_false in T. simpl in T. destruct T as [T1 T2].
  apply fits_true in T1. split; [|exact T1].
  apply too_long_false. simpl. split.
  - apply fits_true. eapply fits_parent; eauto.
  - rewrite forallb_app in T2. now apply andb_true_iff in T2.
Qed.

(** A shorter name in the place of the last one. *)
Lemma too_long_sibling (a : Anchor) (ps : list pystr) (x y : pystr) :
  (name_bytes y <= name_bytes x)%N ->
  too_long (mkPath a (ps ++ [x])) = false ->
  too_long (mkPath a (ps ++ [y])) = false.
Proof.
  intros L T. apply too_long_false in T. simpl in T. destruct T as [T1 T2].
  apply fits_true in T1. unfold fits in T1. rewrite path_bytes_snoc in T1.
  rewrite forallb_app in T2. apply andb_true_iff in T2. destruct T2 as [T2 T3].
  simpl in T3. rewrite andb_true_r in T3. unfold short in T3.
  apply N.leb_le in T3.
  apply too_long_false. simpl. split.
  - apply fits_true. unfold fits. rewrite path_bytes_snoc. destruct ps; lia.
  - rewrite forallb_app, T2. simpl. rewrite andb_true_r.
    unfold short. apply N.leb_le. lia.
Qed.

Lemma exists_child (w : world) (p : Path) (x : pystr) :
  regular x -> encodable x = true ->
  too_long (mkPath (anchor p) (parts p ++ [x])) = false ->
  Path_exists (mkPath (anchor p) (parts p ++ [x])) w =
  (Ok match directory w p with
      | Some es => match lookup x es with Some _ => true | None => false end
      | None => false
      end, w).
Proof.
  intros R Enc T. destruct (too_long_parent R T) as [_ F].
  unfold Path_exists, try_except, bind.
  pose proof (fun e => @stat_ignored w _ e T) as I.
  rewrite stat_child in * by assumption.
  destruct (directory w p) as [es|].
  - destruct (lookup x es); reflexivity.
  - simpl in I. now rewrite (I _ eq_refl).
Qed.

Lemma is_dir_child (w : world) (p : Path) (x : pystr) :
  regular x -> encodable x = true ->
  too_long (mkPath (anchor p) (parts p ++ [x])) = false ->
  Path_is_dir (mkPath (anchor p) (parts p ++ [x])) w =
  (Ok match directory w p with
      | Some es => match lookup x es with Some (Dir _) => true | _ => false end
      | None => false
      end, w).
Proof.
  intros R Enc T. destruct (too_long_parent R T) as [_ F].
  unfold Path_is_dir, try_except, bind.
  pose proof (fun e => @stat_ignored w _ e T) as I.
  rewrite stat_child in * by assumption.
  destruct (directory w p) as [es|].
  - destruct (lookup x es) as [[s|sub]|]; reflexivity.
  - simpl in I. now rewrite (I _ eq_refl).
Qed.

Lemma any_filter (g : pystr -> bool) (f : pystr -> Path) (names : list pystr) :
  any (map f (filter g names)) = existsb g names.
Proof.
  induction names as [|n rest IH]; simpl; [reflexivity|].
  destruct (g n); simpl; auto.
Qed.

Lemma existsb_fst (g : pystr -> bool) (sub : list (pystr * node)) :
  existsb g (map fst sub) = existsb (fun e => g (fst e)) sub.
Proof. induction sub as [|e rest IH]; simpl; congruence. Qed.

Lemma glob_child (w : world) (p : Path) (x : pystr) (pattern : string) :
  regular x -> encodable x = true ->
  too_long (mkPath (anchor p) (parts p ++ [x])) = false ->
  exists l,
    Path_glob (mkPath (anchor p) (parts p ++ [x])) pattern w = (Ok l, w) /\
    any l = match directory w p with
            | Some es =>
                match lookup x es with
                | Some (Dir sub) =>
                    existsb (fun e => fnmatch (u pattern) (fst e)) sub
                | _ => false
                end
            | None => false
            end.
Proof.
  intros R Enc T. destruct (too_long_parent R T) as [_ F].
  unfold Path_glob. unfold bind at 1.
  rewrite is_dir_child by assumption.
  destruct (directory w p) as [es|] eqn:Dp; [|eexists; split; reflexivity].
  destruct (lookup x es) as [[s|sub]|] eqn:L; try (eexists; split; reflexivity).
  unfold os_scandir, bind. rewrite stat_child by assumption. rewrite Dp, L.
  eexists. split; [reflexivity|].
  simpl. now rewrite any_filter, existsb_fst.
Qed.

(** What [detect_project_structure] returns, told from the tree, when the
    path of the marker file is within the limits; the world stays as it
    is. *)
Lemma detect_project_structure_eq (self : SuiCIGenerator) (w : world) :
  too_long (project_root self // "Move.toml")%path = false ->
  detect_project_structure self w =
  (Ok (dict [
     ("has_move_toml", PBool (has_entry "Move.toml" (directory w (project_root self))));
     ("has_tests", PBool (has_move_files "tests" (directory w (project_root self))));
     ("has_sources", PBool (has_move_files "sources" (directory w (project_root self))))]),
   w).
Proof.
  unfold detect_project_structure.
  assert (R : forall s, In s ["Move.toml"; "tests"; "sources"] ->
                regular (u s) /\ encodable (u s) = true /\
                (name_bytes (u s) <= name_bytes (u "Move.toml"))%N /\
                forall p, (p // s)%path = mkPath (anchor p) (parts p ++ [u s])).
  { intros s [<-|[<-|[<-|[]]]]; repeat split; now vm_compute. }
  destruct (R "Move.toml") as [R1 [E1 [_ P1]]]; [simpl; auto|].
  destruct (R "tests") as [R2 [E2 [L2 P2]]]; [simpl; auto|].
  destruct (R "sources") as [R3 [E3 [L3 P3]]]; [simpl; auto|].
  rewrite P1, P2, P3. intros T1.
  pose proof (too_long_sibling L2 T1) as T2.
  pose proof (too_long_sibling L3 T1) as T3.
  unfold bind at 1. rewrite (exists_child w R1 E1 T1).
  destruct (glob_child w "*.move" R2 E2 T2) as [l2 [G2 A2]].
  destruct (glob_child w "*.move" R3 E3 T3) as [l3 [G3 A3]].
  unfold bind at 1. rewrite G2. unfold bind at 1. rewrite G3.
  unfold ret, has_entry, has_move_files. rewrite A2, A3. reflexivity.
Qed.

(** *** The pattern *)

Lemma fnmatch_star (pat name : pystr) :
  fnmatch (42%N :: pat) name = true <->
  exists a b, name = a ++ b /\ fnmatch pat b = true.
Proof.
  simpl. induction name as [|c rest IH].
  - rewrite orb_false_r. split.
    + intros H. exists [], []. auto.
    + intros [a [b [E H]]]. symmetry in E. apply app_eq_nil in E.
      destruct E as [_ ->]. exact H.
  - rewrite orb_true_iff, IH. split.
    + intros [H|[a [b [-> H]]]].
      * exists [], (c :: rest). auto.
      * exists (c :: a), b. auto.
    + intros [[|c' a] [b [E H]]]; simpl in E.
      * left. now subst b.
      * injection E as <- ->. right. eauto.
Qed.

Lemma fnmatch_literal (pat s : pystr) :
  forallb (fun c => negb (c =? 42)%N && negb (c =? 63)%N) pat = true ->
  (fnmatch pat s = true <-> s = pat).
Proof.
  revert s. induction pat as [|c pat IH]; intros s; simpl.
  - intros _. destruct s; split; congruence.
  - intros H. apply andb_true_iff in H. destruct H as [H1 H2].
    apply andb_true_iff in H1. destruct H1 as [A B].
    apply negb_true_iff in A, B. rewrite A, B. simpl.
    destruct s as [|d s]; [split; discriminate|].
    rewrite andb_true_iff, (IH s H2), N.eqb_eq. split.
    + intros [-> ->]. reflexivity.
    + intros [= -> ->]. auto.
Qed.

(** A name matches [*.move] when it ends with [.move]. *)
Lemma fnmatch_move (name : pystr) :
  fnmatch (u "*.move") name = true <-> exists stem, name = stem ++ u ".move".
Proof.
  change (u "*.move") with (42%N :: u ".move").
  rewrite fnmatch_star. split.
  - intros [a [b [-> H]]]. apply fnmatch_literal in H; [|reflexivity].
    subst b. eauto.
  - intros [stem ->]. exists stem, (u ".move"). split; [reflexivity|].
    apply fnmatch_literal; reflexivity.
Qed.

Lemma has_move_files_iff (x : string) (dir : option (list (pystr * node))) :
  has_move_files x dir = true <->
  exists es sub stem n,
    dir = Some es /\ lookup (u x) es = Some (Dir sub) /\
    In (stem ++ u ".move", n) sub.
Proof.
  unfold has_move_files. split.
  - destruct dir as [es|]; [|discriminate].
    destruct (lookup (u x) es) as [[s|sub]|] eqn:L; try discriminate.
    intros H. apply existsb_exists in H. destruct H as [[name n] [I M]].
    simpl in M. apply fnmatch_move in M. destruct M as [stem ->].
    exists es, sub, stem, n. auto.
  - intros [es [sub [stem [n [-> [-> I]]]]]].
    apply existsb_exists. exists (stem ++ u ".move", n). split; [exact I|].
    simpl. apply fnmatch_move. eauto.
Qed.

Lemma has_entry_iff (x : string) (dir : option (list (pystr * node))) :
  has_entry x dir = true <->
  exists es n, dir = Some es /\ lookup (u x) es = Some n.
Proof.
  unfold has_entry. split.
  - destruct dir as [es|]; [|discriminate].
    destruct (lookup (u x) es) as [n|] eqn:L; [|discriminate]. eauto.
  - intros [es [n [-> ->]]]. reflexivity.
Qed.

(** The probe reads only. *)
Lemma handler_world (A : Type) (c : M A) (h : exn -> M A) (w : world) :
  snd (c w) = w -> (forall e, snd (h e w) = w) -> snd (try_except c h w) = w.
Proof.
  unfold try_except. intros Hc Hh.
  destruct (c w) as [[a|e] w']; simpl in *; subst; auto.
Qed.

Lemma bind_world (A B : Type) (c : M A) (k : A -> M B) (w : world) :
  snd (c w) = w -> (forall a, snd (k a w) = w) -> snd (bind c k w) = w.
Proof.
  unfold bind. intros Hc Hk.
  destruct (c w) as [[a|e] w']; simpl in *; subst; auto.
Qed.

Lemma Path_exists_world (p : Path) (w : world) : snd (Path_exists p w) = w.
Proof.
  unfold Path_exists. apply handler_world.
  - apply bind_world; [apply os_stat_world | reflexivity].
  - intros e. now destruct (ignored e).
Qed.

Lemma Path_is_dir_world (p : Path) (w : world) : snd (Path_is_dir p w) = w.
Proof.
  unfold Path_is_dir. apply handler_world.
  - apply bind_world; [apply os_stat_world | reflexivity].
  - intros e. now destruct (ignored e).
Qed.

Lemma Path_glob_world (p : Path) (pattern : string) (w : world) :
  snd (Path_glob p pattern w) = w.
Proof.
  unfold Path_glob. apply bind_world; [apply Path_is_dir_world|].
  intros [|]; [|reflexivity].
  unfold os_scandir. apply bind_world; [|reflexivity].
  apply bind_world; [apply os_stat_world|]. now intros [s|es].
Qed.

Lemma detect_project_structure_world (self : SuiCIGenerator) (w : world) :
  snd (detect_project_structure self w) = w.
Proof.
  unfold detect_project_structure.
  apply bind_world; [apply Path_exists_world|]. intros b.
  apply bind_world; [apply Path_glob_world|]. intros t.
  apply bind_world; [apply Path_glob_world|]. reflexivity.
Qed.

(** A path whose text has [PATH_MAX] bytes or more is refused by the system
    before anything is looked up, and [exists] raises the error again. *)
Lemma exists_beyond_path_max (p : Path) (w : world) :
  forallb encodable (parts p) = true -> ~ fits p ->
  Path_exists p w = (Raise OSError, w).
Proof.
  intros Enc F. unfold Path_exists, try_except, bind, os_stat, resolve.
  rewrite Enc.
  destruct (PATH_MAX <=? path_bytes p)%N eqn:L; [reflexivity|].
  apply fits_true in L. contradiction.
Qed.

(** *** What a call that returns has found *)

(** The resolution of an entry of [p], whatever the lengths. *)
Lemma resolve_child_cases (w : world) (p : Path) (x : pystr) :
  regular x -> encodable x = true ->
  resolve w (mkPath (anchor p) (parts p ++ [x])) =
  if forallb encodable (parts p) &&
     (PATH_MAX <=? path_bytes (mkPath (anchor p) (parts p ++ [x])))%N
  then Raise OSError
  else match resolve w p with
       | Ok d => match get (root w) d with
                 | Some (Dir _) => Ok (d ++ [x])
                 | Some (File _) => Raise NotADirectoryError
                 | None => Raise FileNotFoundError
                 end
       | Raise e => Raise e
       end.
Proof.
  intros R Enc.
  destruct (forallb encodable (parts p)) eqn:Ep; simpl.
  - destruct (PATH_MAX <=? path_bytes (mkPath (anchor p) (parts p ++ [x])))%N eqn:L.
    + unfold resolve. simpl. rewrite forallb_app, Ep. simpl. rewrite Enc. simpl.
      simpl in L. now rewrite L.
    + apply resolve_child; auto. now apply fits_true.
  - unfold resolve. simpl. rewrite forallb_app, Ep. reflexivity.
Qed.

Lemma stat_entry (w : world) (p : Path) (x : pystr)
    (es : list (pystr * node)) :
  regular x -> encodable x = true ->
  directory w p = Some es ->
  os_stat (mkPath (anchor p) (parts p ++ [x])) w =
  if (PATH_MAX <=? path_bytes (mkPath (anchor p) (parts p ++ [x])))%N
  then (Raise OSError, w)
  else match lookup x es with
       | Some n => (Ok n, w)
       | None => (Raise FileNotFoundError, w)
       end.
Proof.
  intros R Enc. unfold os_stat, directory.
  rewrite resolve_child_cases by assumption.
  destruct (resolve w p) as [d|e] eqn:Rp; [|discriminate].
  destruct (get (root w) d) as [[s|es0]|] eqn:G; try discriminate.
  intros [= ->].
  assert (Ep : forallb encodable (parts p) = true).
  { unfold resolve in Rp. now destruct (forallb encodable (parts p)). }
  rewrite Ep. simpl.
  destruct (PATH_MAX <=? _)%N; [reflexivity|].
  now rewrite (get_child x G).
Qed.

Lemma stat_no_directory (w : world) (p : Path) (x : pystr) :
  regular x -> encodable x = true ->
  directory w p = None ->
  exists e, os_stat (mkPath (anchor p) (parts p ++ [x])) w = (Raise e, w).
Proof.
  intros R Enc. unfold os_stat, directory.
  rewrite resolve_child_cases by assumption.
  destruct (forallb encodable (parts p) && (PATH_MAX <=? _)%N); [eauto|].
  destruct (resolve w p) as [d|e]; [|eauto].
  destruct (get (root w) d) as [[s|es0]|]; try discriminate; eauto.
Qed.

(** When [exists] returns, it tells whether the entry is there. *)
Lemma exists_child_returns (w w' : world) (p : Path) (x : pystr) (b : bool) :
  regular x -> encodable x = true ->
  Path_exists (mkPath (anchor p) (parts p ++ [x])) w = (Ok b, w') ->
  w' = w /\
  b = match directory w p with
      | Some es => match lookup x es with Some _ => true | None => false end
      | None => false
      end.
Proof.
  intros R Enc. unfold Path_exists, try_except, bind.
  destruct (directory w p) as [es|] eqn:Dp.
  - rewrite (stat_entry R Enc Dp).
    destruct (PATH_MAX <=? _)%N; [discriminate|].
    destruct (lookup x es); simpl; intros [= <- <-]; auto.
  - destruct (stat_no_directory R Enc Dp) as [e ->].
    destruct (ignored e); [|discriminate]. intros [= <- <-]. auto.
Qed.

Lemma is_dir_child_returns (w w' : world) (p : Path) (x : pystr) (b : bool) :
  regular x -> encodable x = true ->
  Path_is_dir (mkPath (anchor p) (parts p ++ [x])) w = (Ok b, w') ->
  w' = w /\
  ((PATH_MAX <=? path_bytes (mkPath (anchor p) (parts p ++ [x])))%N
     = false \/ directory w p = None) /\
  b = match directory w p with
      | Some es => match lookup x es with Some (Dir _) => true | _ => false end
      | None => false
      end.
Proof.
  intros R Enc. unfold Path_is_dir, try_except, bind.
  destruct (directory w p) as [es|] eqn:Dp.
  - rewrite (stat_entry R Enc Dp).
    destruct (PATH_MAX <=? _)%N; [discriminate|].
    destruct (lookup x es) as [[s|sub]|]; simpl; intros [= <- <-]; auto.
  - destruct (stat_no_directory R Enc Dp) as [e ->].
    destruct (ignored e); [|discriminate]. intros [= <- <-]. auto.
Qed.

Lemma glob_child_returns (w w' : world) (p : Path) (x : pystr)
    (pattern : string) (l : list Path) :
  regular x -> encodable x = true ->
  Path_glob (mkPath (anchor p) (parts p ++ [x])) pattern w = (Ok l, w') ->
  w' = w /\
  any l = match directory w p with
          | Some es =>
              match lookup x es with
              | Some (Dir sub) =>
                  existsb (fun e => fnmatch (u pattern) (fst e)) sub
              | _ => false
              end
          | None => false
          end.
Proof.
  intros R Enc. unfold Path_glob. unfold bind at 1.
  destruct (Path_is_dir (mkPath (anchor p) (parts p ++ [x])) w)
    as [[b|e] w1] eqn:D; [|discriminate].
  destruct (is_dir_child_returns R Enc D) as [-> [L Hb]].
  destruct b.
  - unfold os_scandir, bind.
    destruct (directory w p) as [es|] eqn:Dp; [|discriminate].
    rewrite (stat_entry R Enc Dp).
    destruct L as [L|L]; [|discriminate]. rewrite L.
    destruct (lookup x es) as [[s|sub]|]; try discriminate.
    intros [= <- <-]. split; [reflexivity|].
    simpl. now rewrite any_filter, existsb_fst.
  - intros [= <- <-]. split; [reflexivity|]. simpl.
    destruct (directory w p) as [es|]; [|reflexivity].
    destruct (lookup x es) as [[s|sub]|]; try reflexivity. discriminate.
Qed.

(** What [detect_project_structure] returns, when it returns. *)
Lemma detect_project_structure_returns (self : SuiCIGenerator) (w w' : world)
    (structure : pyval) :
  detect_project_structure self w = (Ok structure, w') ->
  w' = w /\
  structure = dict [
    ("has_move_toml", PBool (has_entry "Move.toml" (directory w (project_root self))));
    ("has_tests", PBool (has_move_files "tests" (directory w (project_root self))));
    ("has_sources", PBool (has_move_files "sources" (directory w (project_root self))))].
Proof.
  unfold detect_project_structure.
  assert (R : forall s, In s ["Move.toml"; "tests"; "sources"] ->
                regular (u s) /\ encodable (u s) = true /\
                forall p, (p // s)%path = mkPath (anchor p) (parts p ++ [u s])).
  { intros s [<-|[<-|[<-|[]]]]; repeat split. }
  destruct (R "Move.toml") as [R1 [E1 P1]]; [simpl; auto|].
  destruct (R "tests") as [R2 [E2 P2]]; [simpl; auto|].
  destruct (R "sources") as [R3 [E3 P3]]; [simpl; auto|].
  rewrite P1, P2, P3.
  set (root_ := project_root self).
  unfold bind at 1.
  destruct (Path_exists (mkPath (anchor root_) (parts root_ ++ [u "Move.toml"])) w)
    as [[b1|e1] w1] eqn:X1; [|discriminate].
  destruct (exists_child_returns R1 E1 X1) as [-> H1].
  unfold bind at 1.
  destruct (Path_glob (mkPath (anchor root_) (parts root_ ++ [u "tests"])) "*.move" w)
    as [[l2|e2] w2] eqn:X2; [|discriminate].
  destruct (glob_child_returns R2 E2 X2) as [-> H2].
  unfold bind at 1.
  destruct (Path_glob (mkPath (anchor root_) (parts root_ ++ [u "sources"])) "*.move" w)
    as [[l3|e3] w3] eqn:X3; [|discriminate].
  destruct (glob_child_returns R3 E3 X3) as [-> H3].
  unfold ret. intros [= <- <-]. split; [reflexivity|].
  unfold has_entry, has_move_files. now rewrite H1, H2, H3.
Qed.

(** C6, as stated, fails: the flags do not ask for files.  In a project
    where [Move.toml], [tests/x.move] and [sources/.move] are directories,
    and no file is anywhere, the three flags are true. *)
Lemma C6_directories_count :
  has_file (root dirs_only_world) = false /\
  detect_project_structure (generator_at (u "proj")) dirs_only_world
    = (Ok (dict [("has_move_toml", PBool true); ("has_tests", PBool true);
                 ("has_sources", PBool true)]), dirs_only_world).
Proof. split; vm_compute; reflexivity. Qed.

(** C6 (amended), on a tree without symbolic links.  Whenever
    [detect_project_structure] returns, it returns the three flags and
    leaves the world as it is, and: [has_move_toml] is true exactly when the
    project root is a directory with an entry [Move.toml], of any kind;
    [has_tests] (and likewise [has_sources]) is true exactly when the project
    root is a directory whose entry [tests] ([sources]) is a directory with
    an entry, of any kind, whose name ends with [.move].  On an empty project
    directory the three flags are false.  The method returns when the path
    of the marker file is within the limits of the system (no name of more
    than 255 bytes, fewer than 4096 bytes in all). *)
Theorem C6_detected_structure (self : SuiCIGenerator) (w : world) :
  (forall structure w',
     detect_project_structure self w = (Ok structure, w') ->
     exists has_move_toml has_tests has_sources : bool,
       structure = dict [("has_move_toml", PBool has_move_toml);
                         ("has_tests", PBool has_tests);
                         ("has_sources", PBool has_sources)] /\
       w' = w /\
       (has_move_toml = true <->
        exists es n, directory w (project_root self) = Some es /\
                     lookup (u "Move.toml") es = Some n) /\
       (has_tests = true <->
        exists es sub stem n,
          directory w (project_root self) = Some es /\
          lookup (u "tests") es = Some (Dir sub) /\
          In (stem ++ u ".move", n) sub) /\
       (has_sources = true <->
        exists es sub stem n,
          directory w (project_root self) = Some es /\
          lookup (u "sources") es = Some (Dir sub) /\
          In (stem ++ u ".move", n) sub) /\
       (directory w (project_root self) = Some [] ->
        has_move_toml = false /\ has_tests = false /\ has_sources = false)) /\
  (too_long (project_root self // "Move.toml")%path = false ->
   exists structure, detect_project_structure self w = (Ok structure, w)).
Proof.
  split.
  - intros structure w' H.
    destruct (detect_project_structure_returns H) as [-> ->].
    exists (has_entry "Move.toml" (directory w (project_root self))),
           (has_move_files "tests" (directory w (project_root self))),
           (has_move_files "sources" (directory w (project_root self))).
    split; [reflexivity|]. split; [reflexivity|].
    split; [apply has_entry_iff|].
    split; [apply has_move_files_iff|].
    split; [apply has_move_files_iff|].
    intros ->. repeat split.
  - intros T. rewrite (detect_project_structure_eq w T). eauto.
Qed.

(** On the populated sample project the method returns, and the three
    flags are true. *)
Lemma C6_detected_structure_witness :
  exists structure,
    detect_project_structure (generator_at (u "contracts")) sample_world
      = (Ok structure, sample_world) /\
    structure = dict [("has_move_toml", PBool true); ("has_tests", PBool true);
                      ("has_sources", PBool true)].
Proof.
  destruct (@C6_detected_structure (generator_at (u "contracts")) sample_world)
    as [Flags Returns].
  destruct Returns as [structure E]; [reflexivity|].
  exists structure. split; [exact E|].
  destruct (Flags structure sample_world E)
    as [b1 [b2 [b3 [-> [_ [[_ I1] [[_ I2] [[_ I3] _]]]]]]]].
  rewrite I1, I2, I3; [reflexivity | | | ].
  - eexists _, _, (u "counter"), _. repeat split. vm_compute. auto.
  - eexists _, _, (u "counter_tests"), _. repeat split. vm_compute. auto.
  - eexists _, _. split; reflexivity.
Defined.

(** Resolution goes name by name. *)
Lemma walk_app (r : node) (ps qs cur : list pystr) :
  qs <> [] ->
  walk r cur (ps ++ qs) =
  match walk r cur ps with
  | Ok d => walk r d qs
  | Raise e => Raise e
  end.
Proof.
  intros Nq. revert cur. induction ps as [|p rest IH]; intros cur.
  - simpl. destruct qs as [|q qs']; [contradiction|]. simpl.
    destruct (get r cur) as [[s|es]|] eqn:G; try reflexivity.
    simpl. now rewrite G.
  - simpl. destruct (get r cur) as [[s|es]|]; try reflexivity.
    destruct (pystr_eqb p dotdot); [apply IH|].
    destruct (is_component p); simpl; [|apply IH].
    destruct (short p); simpl; [|reflexivity].
    destruct rest as [|p' rest'].
    + simpl. destruct qs; [contradiction | reflexivity].
    + apply (IH (cur ++ [p])).
Qed.

(** A name of more than [NAME_MAX] bytes that is looked up in an existing
    directory stops the resolution, whatever follows it. *)
Lemma resolve_long_name (w : world) (a : Anchor) (base more : list pystr)
    (n : pystr) (es : list (pystr * node)) :
  forallb encodable (base ++ n :: more) = true ->
  fits (mkPath a (base ++ n :: more)) ->
  directory w (mkPath a base) = Some es ->
  is_component n = true -> pystr_eqb n dotdot = false -> short n = false ->
  resolve w (mkPath a (base ++ n :: more)) = Raise OSError.
Proof.
  intros Enc F Dp Hc Hd Hs. apply fits_true in F.
  unfold directory, resolve in Dp. unfold resolve.
  unfold absolute in *. cbn [anchor parts] in *.
  rewrite Enc, F. rewrite walk_app by discriminate.
  destruct (forallb encodable base); [|discriminate].
  destruct (PATH_MAX <=? path_bytes (mkPath a base))%N; [discriminate|].
  match goal with
  | |- context [walk (root w) ?st base] =>
      destruct (walk (root w) st base) as [d|e] eqn:Wk
  end.
  - destruct (get (root w) d) as [[s|es0]|] eqn:G; try discriminate.
    cbn [walk]. now rewrite G, Hd, Hc, Hs.
  - discriminate.
Qed.

(** C7, as stated, fails: a project root whose name has 256 bytes makes
    [os.stat] fail with [ENAMETOOLONG], which [Path.exists] does not take
    for a missing file, and the method has no handler. *)
Lemma C7_long_project_root_raises :
  __init__ [(KStr (u "project_root"), PStr long_name)]
    = Ok (generator_at long_name) /\
  detect_project_structure (generator_at long_name) sample_world
    = (Raise OSError, sample_world).
Proof. split; vm_compute; reflexivity. Qed.

(** C7 (amended): [detect_project_structure] never changes the world.  When
    the path of the marker file is within the limits of the system (no name
    of more than 255 bytes, fewer than 4096 bytes in all) it returns, for
    every generator and every world: when the project root does not lead to a
    directory (it does not exist, it is a file, or it cannot be a path at
    all) the three flags are false, and a flag is false when the entry it
    looks for is absent.  When that path can be encoded and has 4096 bytes or
    more, the method raises [OSError]; so it does when the path can be
    encoded, has fewer than 4096 bytes, and the project root holds a name of
    more than 255 bytes after names that lead to a directory. *)
Theorem C7_detect_within_limits (self : SuiCIGenerator) (w : world) :
  snd (detect_project_structure self w) = w /\
  (too_long (project_root self // "Move.toml")%path = false ->
   (exists structure, detect_project_structure self w = (Ok structure, w)) /\
   (directory w (project_root self) = None ->
    detect_project_structure self w =
      (Ok (dict [("has_move_toml", PBool false); ("has_tests", PBool false);
                 ("has_sources", PBool false)]), w)) /\
   (forall es, directory w (project_root self) = Some es ->
      lookup (u "Move.toml") es = None ->
      lookup (u "tests") es = None ->
      lookup (u "sources") es = None ->
      detect_project_structure self w =
        (Ok (dict [("has_move_toml", PBool false); ("has_tests", PBool false);
                   ("has_sources", PBool false)]), w))) /\
  (forallb encodable (parts (project_root self)) = true ->
   ~ fits (project_root self // "Move.toml")%path ->
   detect_project_structure self w = (Raise OSError, w)) /\
  (forall base n more es,
     parts (project_root self) = base ++ n :: more ->
     forallb encodable (parts (project_root self)) = true ->
     fits (project_root self // "Move.toml")%path ->
     directory w (mkPath (anchor (project_root self)) base) = Some es ->
     is_component n = true -> pystr_eqb n dotdot = false -> short n = false ->
     detect_project_structure self w = (Raise OSError, w)).
Proof.
  split; [apply detect_project_structure_world|]. split; [|split].
  - intros T. rewrite (detect_project_structure_eq w T). split; [eauto|]. split.
    + intros ->. reflexivity.
    + intros es -> L1 L2 L3. unfold has_entry, has_move_files.
      now rewrite L1, L2, L3.
  - intros Enc F. unfold detect_project_structure, bind.
    rewrite exists_beyond_path_max; auto.
    change (project_root self // "Move.toml")%path
      with (mkPath (anchor (project_root self))
              (parts (project_root self) ++ [u "Move.toml"])).
    simpl. rewrite forallb_app, Enc. reflexivity.
  - intros base n more es P Enc F Dp Hc Hd Hs.
    assert (Q : (project_root self // "Move.toml")%path
                = mkPath (anchor (project_root self))
                    (base ++ n :: (more ++ [u "Move.toml"]))).
    { change (project_root self // "Move.toml")%path
        with (mkPath (anchor (project_root self))
                (parts (project_root self) ++ [u "Move.toml"])).
      rewrite P, <- app_assoc. reflexivity. }
    rewrite Q in F.
    assert (E : resolve w (mkPath (anchor (project_root self))
                             (base ++ n :: (more ++ [u "Move.toml"])))
                = Raise OSError).
    { apply resolve_long_name with (es := es); auto.
      rewrite P in Enc. rewrite app_comm_cons, app_assoc, forallb_app, Enc.
      reflexivity. }
    unfold detect_project_structure. rewrite Q.
    unfold bind at 1. unfold Path_exists, try_except, bind, os_stat.
    now rewrite E.
Qed.

(** A project root that does not exist: the flags are false. *)
Lemma C7_detect_within_limits_witness :
  detect_project_structure (generator_at (u "/no/such/dir")) sample_world =
    (Ok (dict [("has_move_toml", PBool false); ("has_tests", PBool false);
               ("has_sources", PBool false)]), sample_world).
Proof.
  destruct (@C7_detect_within_limits (generator_at (u "/no/such/dir")) sample_world)
    as [_ [[_ [H _]] _]]; [reflexivity|].
  apply H. reflexivity.
Defined.

(** ** Making directories and writing files *)

Lemma is_dir_directory (p : Path) (w : world) (es : list (pystr * node)) :
  directory w p = Some es -> Path_is_dir p w = (Ok true, w).
Proof.
  unfold Path_is_dir, try_except, bind, os_stat, directory.
  destruct (resolve w p) as [d|e]; [|discriminate].
  destruct (get (root w) d) as [[s|es0]|]; try discriminate. reflexivity.
Qed.

Lemma directory_child (w : world) (p : Path) (x : pystr) :
  regular x -> encodable x = true ->
  fits (mkPath (anchor p) (parts p ++ [x])) ->
  directory w (mkPath (anchor p) (parts p ++ [x])) =
  match directory w p with
  | Some es => match lookup x es with
               | Some (Dir sub) => Some sub
               | _ => None
               end
  | None => None
  end.
Proof.
  intros R Enc F. unfold directory. rewrite resolve_child by assumption.
  destruct (resolve w p) as [d|e]; [|reflexivity].
  destruct (get (root w) d) as [[s|es]|] eqn:G; try reflexivity.
  rewrite (get_child x G). now destruct (lookup x es) as [[s|sub]|].
Qed.

Lemma resolve_snoc (w : world) (anc : Anchor) (ps : list pystr) (x : pystr) :
  regular x -> encodable x = true -> fits (mkPath anc (ps ++ [x])) ->
  resolve w (mkPath anc (ps ++ [x])) =
  match resolve w (mkPath anc ps) with
  | Ok d => match get (root w) d with
            | Some (Dir _) => Ok (d ++ [x])
            | Some (File _) => Raise NotADirectoryError
            | None => Raise FileNotFoundError
            end
  | Raise e => Raise e
  end.
Proof. intros R Enc F. exact (@resolve_child w (mkPath anc ps) x R Enc F). Qed.

Lemma extends_refl (w : world) : extends w w.
Proof. split; [apply dirs_kept_refl | split; reflexivity]. Qed.

Lemma extends_trans (a b c : world) : extends a b -> extends b c -> extends a c.
Proof.
  intros [K1 [C1 S1]] [K2 [C2 S2]]. split; [eapply dirs_kept_trans; eauto|].
  split; congruence.
Qed.

Lemma resolve_kept (w w' : world) (p : Path) (c : list pystr) :
  extends w w' -> resolve w p = Ok c -> resolve w' p = Ok c.
Proof.
  intros [K [C _]]. unfold resolve. rewrite C.
  destruct (forallb encodable (parts p)); [|discriminate].
  destruct (PATH_MAX <=? path_bytes p)%N; [discriminate|].
  now apply walk_kept.
Qed.

(** [os.mkdir] of a new entry of an existing directory. *)
Lemma os_mkdir_new (w : world) (anc : Anchor) (ps : list pystr) (x : pystr)
    (es : list (pystr * node)) :
  regular x -> encodable x = true -> fits (mkPath anc (ps ++ [x])) ->
  directory w (mkPath anc ps) = Some es -> lookup x es = None ->
  exists w', os_mkdir (mkPath anc (ps ++ [x])) w = (Ok tt, w') /\
             extends w w' /\
             directory w' (mkPath anc (ps ++ [x])) = Some [].
Proof.
  intros R Enc F Dp L.
  pose proof (@resolve_snoc w anc ps x R Enc F) as RC.
  unfold directory in Dp.
  destruct (resolve w (mkPath anc ps)) as [d|e] eqn:Rp; [|discriminate].
  destruct (get (root w) d) as [[s|es0]|] eqn:G; try discriminate.
  injection Dp as ->.
  destruct (@put_child d x (root w) (Dir []) es G) as [r' P].
  assert (Gx : get (root w) (d ++ [x]) = None) by (now rewrite (get_child x G)).
  exists (mkWorld r' (cwd w) (stdout w)).
  assert (Ex : extends w (mkWorld r' (cwd w) (stdout w))).
  { split; [|split; reflexivity]. simpl.
    eapply put_keeps_dirs; eauto. now rewrite Gx. }
  split; [|split; [exact Ex|]].
  - unfold os_mkdir. now rewrite RC, Gx, P.
  - unfold directory. rewrite (resolve_kept Ex RC). simpl.
    now rewrite (get_put_same P).
Qed.

Lemma mkdir_parents_eq (anc : Anchor) (rp : list pystr) :
  mkdir_parents anc rp =
  try_except (os_mkdir (mkPath anc (rev rp)))
    (fun e =>
       match e with
       | FileNotFoundError =>
           match rp with
           | [] => raise e
           | _ :: rparent =>
               mkdir_parents anc rparent ;;; mkdir_exist_ok (mkPath anc (rev rp))
           end
       | _ =>
           if is_OSError e then
             d <- Path_is_dir (mkPath anc (rev rp)) ;;
             if d then ret tt else raise e
           else raise e
       end).
Proof. destruct rp; reflexivity. Qed.

(** The recursive call of [mkdir_parents] is on the parent of the path. *)
Lemma mkdir_parents_parent (anc : Anchor) (x : pystr) (rparent : list pystr) :
  Path_parent (mkPath anc (rev (x :: rparent))) = mkPath anc (rev rparent).
Proof. unfold Path_parent. simpl. now rewrite removelast_last. Qed.

(** [mkdir(parents=True, exist_ok=True)] on an existing directory does
    nothing and raises nothing. *)
Lemma mkdir_parents_existing (anc : Anchor) (ps : list pystr) (w : world)
    (es : list (pystr * node)) :
  directory w (mkPath anc ps) = Some es ->
  mkdir_parents anc (rev ps) w = (Ok tt, w).
Proof.
  intros Dp. rewrite mkdir_parents_eq, rev_involutive.
  unfold try_except, os_mkdir.
  pose proof Dp as Dp'. unfold directory in Dp'.
  destruct (resolve w (mkPath anc ps)) as [d|e]; [|discriminate].
  destruct (get (root w) d) as [[s|es0]|]; try discriminate.
  simpl. unfold bind. rewrite (is_dir_directory Dp). reflexivity.
Qed.

(** A path through a missing entry leads nowhere. *)
Lemma resolve_missing (w : world) (anc : Anchor) (base more : list pystr)
    (n : pystr) (es : list (pystr * node)) :
  regular n -> encodable n = true ->
  Forall regular more -> forallb encodable more = true -> more <> [] ->
  fits (mkPath anc (base ++ n :: more)) ->
  directory w (mkPath anc base) = Some es -> lookup n es = None ->
  resolve w (mkPath anc (base ++ n :: more)) = Raise FileNotFoundError.
Proof.
  intros Rn En Rm Em Ne F Dp L. revert F.
  induction more as [|m more' IH] using rev_ind; [contradiction|].
  apply Forall_app in Rm. destruct Rm as [Rm' Rm1].
  inversion Rm1 as [|? ? Rmm _]; subst.
  rewrite forallb_app in Em. apply andb_true_iff in Em. destruct Em as [Em' Em1].
  simpl in Em1. rewrite andb_true_r in Em1.
  replace (base ++ n :: more' ++ [m]) with ((base ++ n :: more') ++ [m])
    by (now rewrite <- app_assoc).
  intros F. pose proof (fits_parent Rmm F) as F'.
  rewrite (@resolve_snoc w anc (base ++ n :: more') m Rmm Em1 F).
  destruct more' as [|m0 more''].
  - rewrite (@resolve_snoc w anc base n Rn En F').
    unfold directory in Dp.
    destruct (resolve w (mkPath anc base)) as [d|e]; [|discriminate].
    destruct (get (root w) d) as [[s|es0]|] eqn:G; try discriminate.
    injection Dp as ->. now rewrite (get_child n G), L.
  - rewrite IH; auto. discriminate.
Qed.

(** [mkdir(parents=True, exist_ok=True)] below an existing directory: the
    missing directories [new] are made, one inside the other. *)
Lemma mkdir_parents_creates (anc : Anchor) (base new : list pystr) (w : world)
    (es : list (pystr * node)) :
  Forall regular new -> forallb encodable new = true ->
  fits (mkPath anc (base ++ new)) ->
  directory w (mkPath anc base) = Some es ->
  match new with [] => True | n :: _ => lookup n es = None end ->
  exists w',
    mkdir_parents anc (rev (base ++ new)) w = (Ok tt, w') /\
    extends w w' /\
    directory w' (mkPath anc (base ++ new))
      = Some match new with [] => es | _ => [] end.
Proof.
  intros Rn En F Dp. revert F.
  induction new as [|y new' IH] using rev_ind; intros F L.
  - exists w. rewrite app_nil_r.
    split; [eapply mkdir_parents_existing; eauto|].
    split; [apply extends_refl | exact Dp].
  - apply Forall_app in Rn. destruct Rn as [Rn' Ry].
    inversion Ry as [|? ? Ryy _]; subst.
    rewrite forallb_app in En. apply andb_true_iff in En. destruct En as [En' Ey].
    simpl in Ey. rewrite andb_true_r in Ey.
    assert (Sh : match new' ++ [y] with [] => es | _ :: _ => [] end = []).
    { now destruct new'. }
    rewrite Sh.
    replace (base ++ new' ++ [y]) with ((base ++ new') ++ [y]) in *
      by (now rewrite <- app_assoc).
    pose proof (fits_parent Ryy F) as F'.
    rewrite mkdir_parents_eq, rev_involutive.
    destruct new' as [|n t].
    + (* the directory is made at once *)
      simpl in L. rewrite app_nil_r in *.
      destruct (@os_mkdir_new w anc base y es Ryy Ey F Dp L)
        as [w' [M [Ex D']]].
      exists w'. unfold try_except. rewrite M. auto.
    + (* the parents are made first *)
      simpl in L.
      assert (Mk : os_mkdir (mkPath anc ((base ++ n :: t) ++ [y])) w
                   = (Raise FileNotFoundError, w)).
      { unfold os_mkdir.
        replace ((base ++ n :: t) ++ [y]) with (base ++ n :: (t ++ [y]))
          by (now rewrite <- app_assoc).
        rewrite (@resolve_missing w anc base (t ++ [y]) n es); auto.
        - now inversion Rn'.
        - simpl in En'. now apply andb_true_iff in En'.
        - apply Forall_app. split; [now inversion Rn' | auto].
        - rewrite forallb_app. simpl in *. apply andb_true_iff in En'.
          destruct En' as [_ ->]. now rewrite Ey.
        - now destruct t.
        - now rewrite app_comm_cons, app_assoc. }
      unfold try_except. rewrite Mk.
      rewrite rev_unit.
      destruct (IH Rn' En' F' L) as [w1 [M1 [Ex1 D1]]].
      unfold bind at 1. rewrite M1.
      destruct (@os_mkdir_new w1 anc (base ++ n :: t) y [] Ryy Ey F D1 eq_refl)
        as [w2 [M2 [Ex2 D2]]].
      exists w2. unfold mkdir_exist_ok, try_except. rewrite M2.
      split; [reflexivity|]. split; [eapply extends_trans; eauto | exact D2].
Qed.

Lemma os_mkdir_extends (p : Path) (w w' : world) (r : result unit) :
  os_mkdir p w = (r, w') -> extends w w'.
Proof.
  unfold os_mkdir.
  destruct (resolve w p) as [c|e]; [|intros [= _ <-]; apply extends_refl].
  destruct (get (root w) c) eqn:G; [intros [= _ <-]; apply extends_refl|].
  destruct (put (root w) c (Dir [])) as [r'|] eqn:P;
    [|intros [= _ <-]; apply extends_refl].
  intros [= _ <-]. split; [|split; reflexivity]. simpl.
  eapply put_keeps_dirs; eauto. now rewrite G.
Qed.

Lemma mkdir_handler_extends (p : Path) (e : exn) (w w' : world)
    (r : result unit) :
  (if is_OSError e
   then d <- Path_is_dir p ;; if d then ret tt else raise e
   else raise e) w = (r, w') ->
  w' = w.
Proof.
  destruct (is_OSError e); [|now intros [= _ <-]].
  unfold bind. pose proof (Path_is_dir_world p w) as W.
  destruct (Path_is_dir p w) as [[[|]|e'] w1]; simpl in W; subst w1;
    now intros [= _ <-].
Qed.

Lemma mkdir_exist_ok_extends (p : Path) (w w' : world) (r : result unit) :
  mkdir_exist_ok p w = (r, w') -> extends w w'.
Proof.
  unfold mkdir_exist_ok, try_except.
  destruct (os_mkdir p w) as [[[]|e] w1] eqn:M.
  - intros [= _ <-]. eapply os_mkdir_extends; eauto.
  - pose proof (os_mkdir_extends M) as E1.
    destruct e; try (intros H; apply mkdir_handler_extends in H; now subst);
      now intros [= _ <-].
Qed.

Lemma mkdir_parents_extends (anc : Anchor) (rp : list pystr) (w w' : world)
    (r : result unit) :
  mkdir_parents anc rp w = (r, w') -> extends w w'.
Proof.
  revert w w' r. induction rp as [|x rp IH]; intros w w' r;
    rewrite mkdir_parents_eq; unfold try_except;
    destruct (os_mkdir (mkPath anc (rev _)) w) as [[[]|e] w1] eqn:M;
    pose proof (os_mkdir_extends M) as E1;
    try (now intros [= _ <-]);
    destruct e; try (intros H; apply mkdir_handler_extends in H; now subst);
    try (now intros [= _ <-]).
  unfold bind at 1.
  destruct (mkdir_parents anc rp w1) as [[[]|e] w2] eqn:M2.
  - intros H. apply mkdir_exist_ok_extends in H.
    eapply extends_trans; [exact E1|]. eapply extends_trans; [|exact H]. eauto.
  - intros [= _ <-]. eapply extends_trans; eauto.
Qed.

(** Writing a file into an existing directory, over a file or not. *)
Lemma write_file_ok (w : world) (anc : Anchor) (ps : list pystr) (x : pystr)
    (s : string) (es : list (pystr * node)) :
  regular x -> encodable x = true -> fits (mkPath anc (ps ++ [x])) ->
  directory w (mkPath anc ps) = Some es -> not_a_dir (lookup x es) ->
  exists w',
    write_file (mkPath anc (ps ++ [x])) s w = (Ok tt, w') /\
    extends w w' /\
    read_file (mkPath anc (ps ++ [x])) w' = (Ok s, w') /\
    exists es', directory w' (mkPath anc ps) = Some es'.
Proof.
  intros R Enc F Dp N.
  pose proof (@resolve_snoc w anc ps x R Enc F) as RC.
  unfold directory in Dp.
  destruct (resolve w (mkPath anc ps)) as [d|e] eqn:Rp; [|discriminate].
  destruct (get (root w) d) as [[s0|es0]|] eqn:G; try discriminate.
  injection Dp as ->.
  destruct (@put_child d x (root w) (File s) es G) as [r' P].
  assert (Gx : get (root w) (d ++ [x]) = lookup x es) by (apply get_child; auto).
  exists (mkWorld r' (cwd w) (stdout w)).
  assert (Ex : extends w (mkWorld r' (cwd w) (stdout w))).
  { split; [|split; reflexivity]. simpl.
    eapply put_keeps_dirs; eauto. now rewrite Gx. }
  split; [|split; [exact Ex|split]].
  - unfold write_file. rewrite RC, Gx, P.
    destruct (lookup x es) as [[|]|]; simpl in N; try reflexivity. contradiction.
  - unfold read_file, bind, os_stat. rewrite (resolve_kept Ex RC). simpl.
    now rewrite (get_put_same P).
  - unfold directory. rewrite (resolve_kept Ex Rp).
    destruct Ex as [K _]. destruct (K _ _ G) as [es' ->]. eauto.
Qed.

Lemma write_file_inv (w w' : world) (anc : Anchor) (ps : list pystr)
    (x : pystr) (s : string) :
  regular x -> encodable x = true ->
  write_file (mkPath anc (ps ++ [x])) s w = (Ok tt, w') ->
  fits (mkPath anc (ps ++ [x])) /\
  exists es, directory w (mkPath anc ps) = Some es /\ not_a_dir (lookup x es).
Proof.
  intros R Enc Wr.
  assert (F : fits (mkPath anc (ps ++ [x]))).
  { unfold write_file in Wr.
    destruct (resolve w (mkPath anc (ps ++ [x]))) as [c|e] eqn:Rc; [|discriminate].
    eapply resolve_fits; eauto. }
  split; [exact F|]. revert Wr. unfold write_file, directory.
  rewrite (@resolve_snoc w anc ps x R Enc F).
  destruct (resolve w (mkPath anc ps)) as [d|e]; [|discriminate].
  destruct (get (root w) d) as [[s0|es]|] eqn:G; try discriminate.
  rewrite (get_child x G).
  intros H. exists es. split; [reflexivity|].
  destruct (lookup x es) as [[|]|]; simpl; auto. discriminate.
Qed.

(** Writing a file the content it has changes nothing. *)
Lemma write_file_again (p : Path) (s : string) (w : world) :
  read_file p w = (Ok s, w) -> write_file p s w = (Ok tt, w).
Proof.
  unfold read_file, bind, os_stat, write_file.
  destruct (resolve w p) as [c|e]; [|discriminate].
  destruct (get (root w) c) as [[s0|es]|] eqn:G; try discriminate.
  intros [= ->]. rewrite (put_same G). now destruct w.
Qed.

Lemma child_path (p : Path) (s : string) :
  absolute (Path_of (u s)) = false ->
  (p // s)%path = mkPath (anchor p) (parts p ++ parts (Path_of (u s))).
Proof. intros H. unfold Path_div. now rewrite H. Qed.

Lemma output_name_regular : regular output_name /\ encodable output_name = true.
Proof. repeat split. Qed.

(** What a successful [save_workflow] leaves, and that saving again changes
    nothing. *)
Lemma save_workflow_post (self : SuiCIGenerator) (workflow : pyval)
    (w w' : world) :
  save_workflow self workflow w = (Ok tt, w') ->
  Path_is_dir (workflow_dir self) w' = (Ok true, w') /\
  read_file (workflow_dir self // "sui-ci.yml")%path w'
    = (Ok (safe_dump workflow), w') /\
  cwd w' = cwd w /\ stdout w' = stdout w /\
  save_workflow self workflow w' = (Ok tt, w').
Proof.
  destruct output_name_regular as [R Enc].
  unfold save_workflow, Path_mkdir.
  rewrite (@child_path (workflow_dir self) "sui-ci.yml" eq_refl).
  change (parts (Path_of (u "sui-ci.yml"))) with [output_name].
  destruct (workflow_dir self) as [anc ps]. simpl anchor. simpl parts.
  unfold bind at 1.
  destruct (mkdir_parents anc (rev ps) w) as [[[]|e] w1] eqn:M; [|discriminate].
  intros Wr.
  pose proof (mkdir_parents_extends M) as [_ [C1 S1]].
  destruct (write_file_inv R Enc Wr) as [F [es [Dp N]]].
  destruct (@write_file_ok w1 anc ps output_name (safe_dump workflow) es R Enc F Dp N)
    as [w2 [Wr2 [[_ [C2 S2]] [Rd [es' D']]]]].
  rewrite Wr in Wr2. injection Wr2 as <-.
  split; [now rewrite (is_dir_directory D')|].
  split; [exact Rd|].
  split; [congruence|]. split; [congruence|].
  unfold bind. rewrite (mkdir_parents_existing D').
  now apply write_file_again.
Qed.

(** [save_workflow] succeeds when the output directory is there and the
    output file is not a directory, and when the output directory has to be
    made, with its parents [n :: new], below an existing directory. *)
Lemma save_workflow_succeeds (self : SuiCIGenerator) (workflow : pyval)
    (w : world) (base new : list pystr) (es : list (pystr * node)) :
  parts (workflow_dir self) = base ++ new ->
  Forall regular new -> forallb encodable new = true ->
  fits (workflow_dir self // "sui-ci.yml")%path ->
  directory w (mkPath (anchor (workflow_dir self)) base) = Some es ->
  match new with
  | [] => not_a_dir (lookup output_name es)
  | n :: _ => lookup n es = None
  end ->
  exists w', save_workflow self workflow w = (Ok tt, w').
Proof.
  destruct output_name_regular as [R Enc].
  unfold save_workflow, Path_mkdir.
  rewrite (@child_path (workflow_dir self) "sui-ci.yml" eq_refl).
  change (parts (Path_of (u "sui-ci.yml"))) with [output_name].
  destruct (workflow_dir self) as [anc ps]. simpl anchor. simpl parts.
  intros -> Rn En F Dp L.
  pose proof (fits_parent R F) as F'.
  destruct (@mkdir_parents_creates anc base new w es Rn En F' Dp) as [w1 [M [_ D1]]].
  { destruct new; auto. }
  assert (N : not_a_dir (lookup output_name match new with [] => es | _ => [] end)).
  { destruct new; [exact L | exact I]. }
  destruct (@write_file_ok w1 anc (base ++ new) output_name (safe_dump workflow)
              _ R Enc F D1 N) as [w2 [Wr _]].
  exists w2. unfold bind. now rewrite M.
Qed.

(** The pairs of a mapping node are the items of the dict, in their
    order. *)
Lemma represent_keeps_order (d : pydict) :
  mapping_keys (Yaml.represent (PDict d)) = map Yaml.represent_key (map fst d).
Proof.
  simpl. rewrite !map_map. apply map_ext. now intros [k v].
Qed.

(** C4: [save_workflow] writes into [.github/workflows] under the project
    root.  A call that returns leaves the output directory a directory and
    the file [sui-ci.yml] in it with the text [safe_dump] gives for the
    document, whatever was there; nothing is printed, and the same call
    again returns and changes nothing.  The call returns, when the path of
    the file has fewer than 4096 bytes, if the directory is there already and
    [sui-ci.yml] is absent or a file, and if the directory has to be made,
    with as many parents as are missing, below an existing directory.  The
    text is the one the emitter writes for the
    representation of the document, where the keys of every dict come in
    the order of the dict; both generated documents have no empty
    collection, so all of their collections are written in block style, the
    top-level keys [name], [on], [env], [jobs] in this order.  The written
    text of each generated document, read back as block-style YAML, is the
    document itself, every dict with its keys in their order; the texts
    start with the lines of [name], [on], [env] and the first job, one entry
    or item a line.  A small dict whose keys are not in alphabetical order
    is written key by key in its own order, its list item by item. *)
Theorem C4_save_workflow (cfg : pydict) (self : SuiCIGenerator)
    (workflow : pyval) (w : world) :
  __init__ cfg = Ok self ->
  workflow_dir self = (project_root self // ".github" // "workflows")%path /\
  (forall w',
     save_workflow self workflow w = (Ok tt, w') ->
     Path_is_dir (workflow_dir self) w' = (Ok true, w') /\
     read_file (workflow_dir self // "sui-ci.yml")%path w'
       = (Ok (safe_dump workflow), w') /\
     cwd w' = cwd w /\ stdout w' = stdout w /\
     save_workflow self workflow w' = (Ok tt, w')) /\
  (forall es,
     fits (workflow_dir self // "sui-ci.yml")%path ->
     directory w (workflow_dir self) = Some es ->
     not_a_dir (lookup (u "sui-ci.yml") es) ->
     exists w', save_workflow self workflow w = (Ok tt, w')) /\
  (forall base n new es,
     fits (workflow_dir self // "sui-ci.yml")%path ->
     parts (workflow_dir self) = base ++ n :: new ->
     Forall regular (n :: new) -> forallb encodable (n :: new) = true ->
     directory w (mkPath (anchor (workflow_dir self)) base) = Some es ->
     lookup n es = None ->
     exists w', save_workflow self workflow w = (Ok tt, w')) /\
  safe_dump workflow = Yaml.written (Yaml.emit_document (Yaml.represent workflow)) /\
  (forall d, mapping_keys (Yaml.represent (PDict d))
             = map Yaml.represent_key (map fst d)) /\
  (forall g,
     all_block (Yaml.represent (Staged.generate_workflow g)) = true /\
     all_block (Yaml.represent (Single.generate_workflow g)) = true /\
     keys (Staged.generate_workflow g) = Some (names ["name"; "on"; "env"; "jobs"]) /\
     keys (Single.generate_workflow g) = Some (names ["name"; "on"; "env"; "jobs"])) /\
  (forall g,
     Reader.load (safe_dump (Staged.generate_workflow g))
       = Some (Staged.generate_workflow g) /\
     Reader.load (safe_dump (Single.generate_workflow g))
       = Some (Single.generate_workflow g) /\
     String.prefix
       (text_lines ["name: Sui Smart Contract CI/CD"; "'on':"; "  push:";
                    "    branches:"; "    - main"; "    - develop";
                    "  pull_request:"; "    branches:"; "    - main";
                    "    - develop"; "env:"; "  RUST_BACKTRACE: '1'";
                    "  SUI_LOG_LEVEL: info"; "jobs:"; "  build:";
                    "    name: Build"; "    runs-on: ubuntu-latest";
                    "    steps:"; "    - name: Checkout code";
                    "      uses: actions/checkout@v4"])
       (safe_dump (Staged.generate_workflow g)) = true /\
     String.prefix
       (text_lines ["name: Sui Smart Contract CI/CD"; "'on':"; "  push:";
                    "    branches:"; "    - main"; "    - develop";
                    "  pull_request:"; "    branches:"; "    - main";
                    "    - develop"; "env:"; "  RUST_BACKTRACE: '1'";
                    "  SUI_LOG_LEVEL: info"; "  SUI_BRANCH: devnet"; "jobs:";
                    "  build-and-deploy:"; "    name: Build and Deploy";
                    "    runs-on: ${{ matrix.os }}"; "    strategy:";
                    "      matrix:"; "        os:"; "        - ubuntu-latest"])
       (safe_dump (Single.generate_workflow g)) = true) /\
  safe_dump (dict [("zeta", str "x"); ("alpha", PList [str "y"; str "z"]);
                   ("mid", dict [("b", str "1"); ("a", str "no")])])
    = text_lines ["zeta: x"; "alpha:"; "- y"; "- z"; "mid:"; "  b: '1'";
                  "  a: 'no'"].
Proof.
  intros I.
  split.
  { unfold __init__ in I.
    destruct (match dict_get cfg (KStr (u "project_root")) with
              | Some v => v
              | None => str "."
              end); try discriminate.
    now injection I as <-. }
  split; [intros w'; apply save_workflow_post|].
  split.
  { intros es F Dp N.
    apply (@save_workflow_succeeds self workflow w (parts (workflow_dir self)) [] es);
      auto; try (now rewrite app_nil_r); now destruct (workflow_dir self). }
  split.
  { intros base n new es F P Rn En Dp L.
    now apply (@save_workflow_succeeds self workflow w base (n :: new) es). }
  split; [reflexivity|].
  split; [apply represent_keeps_order|].
  split; [intros g; repeat split; vm_compute; reflexivity|].
  split; [intros g; repeat split; vm_compute; reflexivity|].
  vm_compute. reflexivity.
Qed.

(** ** The configuration *)

(** C2: when [--config] names a file that holds a JSON object, every key
    of the file has the value of the file in the merged configuration, also
    the keys the command line sets; the keys the file does not hold keep
    the value of the command line.  In particular a file with
    [enable_deployment] true gives a configuration with [enable_deployment]
    true, whatever the flag of the command line. *)
Theorem C2_config_file_wins (json_loads : string -> option pyval)
    (args : Namespace) (w : world) (c : N) (s : pystr) (text : string)
    (file : pydict) :
  args_config args = Some (c :: s) ->
  fst (read_file (os_path (c :: s)) w) = Ok text ->
  json_loads text = Some (PDict file) ->
  dict_wf file = true ->
  let cli := [(KStr (u "project_root"), PStr (args_project_root args));
              (KStr (u "enable_deployment"), PBool (args_enable_deployment args))] in
  exists merged,
    build_config json_loads args w = (Ok merged, w) /\
    (forall k v, dict_get file k = Some v -> dict_get merged k = Some v) /\
    (forall k, dict_get file k = None -> dict_get merged k = dict_get cli k) /\
    (dict_get file (KStr (u "enable_deployment")) = Some (PBool true) ->
     dict_get merged (KStr (u "enable_deployment")) = Some (PBool true)).
Proof.
  intros Hc Hr Hj Hw cli.
  exists (dict_update cli file).
  assert (B : build_config json_loads args w = (Ok (dict_update cli file), w)).
  { unfold build_config. rewrite Hc. unfold bind.
    pose proof (read_file_world (os_path (c :: s)) w) as Hs.
    destruct (read_file (os_path (c :: s)) w) as [r w']. simpl in *. subst.
    rewrite Hj. reflexivity. }
  split; [exact B|]. split; [|split].
  - intros k v H. now apply dict_update_wins.
  - intros k H. now apply dict_update_other.
  - intros H. now apply dict_update_wins.
Qed.

Lemma C2_config_file_wins_witness :
  exists merged,
    build_config sample_loads (sample_args (Some "config.json") "demo" false)
      sample_world = (Ok merged, sample_world) /\
    dict_get merged (KStr (u "enable_deployment")) = Some (PBool true).
Proof.
  destruct (@C2_config_file_wins sample_loads
              (sample_args (Some "config.json") "demo" false) sample_world
              99%N (u "onfig.json") sample_json
              [(KStr (u "enable_deployment"), PBool true)])
    as [merged [B [_ [_ H]]]]; try reflexivity.
  exists merged. split; [exact B | apply H; reflexivity].
Defined.

(** An exception while the configuration is built leaves [main] at once,
    with the world as it was: also a JSON document that [update] cannot
    take, such as a number. *)
Lemma config_error_is_fatal (json_loads : string -> option pyval)
    (generate_workflow : SuiCIGenerator -> pyval)
    (args : Namespace) (w : world) (e : exn) :
  fst (build_config json_loads args w) = Raise e ->
  main json_loads generate_workflow args w = (Raise e, w).
Proof.
  intros He. unfold main, bind at 1.
  pose proof (build_config_world json_loads args w) as Hw.
  destruct (build_config json_loads args w) as [r w']. simpl in *. now subst.
Qed.

(** C8: when [--config] names a file that cannot be read or whose content
    is not a JSON document, [main] raises an exception and leaves the world
    as it was: no directory is made, no file is written, nothing is
    printed.  This holds for every [generate_workflow]. *)
Theorem C8_bad_config_is_fatal (json_loads : string -> option pyval)
    (generate_workflow : SuiCIGenerator -> pyval)
    (args : Namespace) (w : world) (c : N) (s : pystr) :
  args_config args = Some (c :: s) ->
  (forall text, fst (read_file (os_path (c :: s)) w) = Ok text ->
                json_loads text = None) ->
  exists e, main json_loads generate_workflow args w = (Raise e, w).
Proof.
  intros Hc Hbad.
  assert (Hr : exists e, fst (build_config json_loads args w) = Raise e).
  { unfold build_config. rewrite Hc. unfold bind.
    destruct (read_file (os_path (c :: s)) w) as [[text|e] w'] eqn:R; simpl.
    - rewrite (Hbad text) by reflexivity. now exists ValueError.
    - now exists e. }
  destruct Hr as [e He]. exists e. now apply config_error_is_fatal.
Qed.

Lemma C8_bad_config_is_fatal_witness :
  (exists e, main sample_loads Staged.generate_workflow
               (sample_args (Some "missing.json") "demo" false) sample_world
             = (Raise e, sample_world)) /\
  (exists e, main sample_loads Single.generate_workflow
               (sample_args (Some "notes.txt") "demo" true) sample_world
             = (Raise e, sample_world)).
Proof.
  split.
  - apply (@C8_bad_config_is_fatal sample_loads Staged.generate_workflow
             (sample_args (Some "missing.json") "demo" false) sample_world
             109%N (u "issing.json")).
    + reflexivity.
    + intros text H. vm_compute in H. discriminate H.
  - apply (@C8_bad_config_is_fatal sample_loads Single.generate_workflow
             (sample_args (Some "notes.txt") "demo" true) sample_world
             110%N (u "otes.txt")).
    + reflexivity.
    + intros text H. vm_compute in H. injection H as <-. reflexivity.
Defined.

(** ** The document *)

(** C5: [generate_workflow] reads nothing but its generator, and of the
    generator nothing at all: two generators with the same configuration
    get equal documents, and the texts [safe_dump] writes for them are the
    same, in both versions. *)
Theorem C5_generate_workflow_is_a_function (g1 g2 : SuiCIGenerator) :
  config g1 = config g2 ->
  Staged.generate_workflow g1 = Staged.generate_workflow g2 /\
  safe_dump (Staged.generate_workflow g1) = safe_dump (Staged.generate_workflow g2) /\
  Single.generate_workflow g1 = Single.generate_workflow g2 /\
  safe_dump (Single.generate_workflow g1) = safe_dump (Single.generate_workflow g2).
Proof. intros _. repeat split; reflexivity. Qed.

Lemma C5_generate_workflow_is_a_function_witness :
  Staged.generate_workflow default_generator
    = Staged.generate_workflow
        (mkGenerator default_config (Path_of (u "/tmp")) (Path_of (u "/tmp/out"))) /\
  safe_dump (Staged.generate_workflow default_generator)
    = safe_dump (Staged.generate_workflow
        (mkGenerator default_config (Path_of (u "/tmp")) (Path_of (u "/tmp/out")))).
Proof.
  destruct (@C5_generate_workflow_is_a_function default_generator
              (mkGenerator default_config (Path_of (u "/tmp")) (Path_of (u "/tmp/out"))))
    as [A [B _]]; [reflexivity|].
  split; [exact A | exact B].
Defined.

(** Configurations that differ in one field stay so through [update]. *)
Lemma dict_set_differ (k k0 : pykey) (v : pyval) (c1 c2 : pydict) :
  differ_only_in k c1 c2 ->
  differ_only_in k (dict_set c1 k0 v) (dict_set c2 k0 v).
Proof.
  intros D k' H. rewrite !dict_get_set. destruct (key_eqb k0 k'); auto.
Qed.

Lemma update_differ (k : pykey) (v : pyval) (c1 c2 : pydict) :
  differ_only_in k c1 c2 ->
  match update c1 v, update c2 v with
  | Ok d1, Ok d2 => differ_only_in k d1 d2
  | Raise e1, Raise e2 => e1 = e2
  | _, _ => False
  end.
Proof.
  intros D. destruct v as [| | |[|c s]|l|o]; simpl; auto.
  - revert c1 c2 D. induction l as [|x rest IH]; intros c1 c2 D; simpl; auto.
    destruct (key_value x) as [[k0 v0]|e]; auto.
    apply IH. now apply dict_set_differ.
  - unfold dict_update. revert c1 c2 D.
    induction o as [|[k0 v0] rest IH]; intros c1 c2 D; simpl; auto.
    apply IH. now apply dict_set_differ.
Qed.

Lemma init_differ (c1 c2 : pydict) :
  differ_only_in (KStr (u "enable_deployment")) c1 c2 ->
  match __init__ c1, __init__ c2 with
  | Ok g1, Ok g2 =>
      config g1 = c1 /\ config g2 = c2 /\
      project_root g1 = project_root g2 /\ workflow_dir g1 = workflow_dir g2
  | Raise e1, Raise e2 => e1 = e2
  | _, _ => False
  end.
Proof.
  intros D.
  assert (R : dict_get c1 (KStr (u "project_root")) = dict_get c2 (KStr (u "project_root")))
    by (apply D; reflexivity).
  unfold __init__. rewrite <- R.
  destruct (match dict_get c1 (KStr (u "project_root")) with
            | Some v => v
            | None => str "."
            end); simpl; auto.
Qed.

Lemma build_config_differ json_loads (config : option pystr) (project : pystr)
    (b1 b2 : bool) (w : world) :
  match build_config json_loads (mkArgs config project b1) w,
        build_config json_loads (mkArgs config project b2) w with
  | (Ok c1, w1), (Ok c2, w2) =>
      differ_only_in (KStr (u "enable_deployment")) c1 c2 /\ w1 = w /\ w2 = w
  | (Raise e1, w1), (Raise e2, w2) => e1 = e2 /\ w1 = w /\ w2 = w
  | _, _ => False
  end.
Proof.
  assert (D0 : differ_only_in (KStr (u "enable_deployment"))
                 [(KStr (u "project_root"), PStr project);
                  (KStr (u "enable_deployment"), PBool b1)]
                 [(KStr (u "project_root"), PStr project);
                  (KStr (u "enable_deployment"), PBool b2)]).
  { intros k' H. cbn [dict_get]. rewrite H. reflexivity. }
  unfold build_config. cbn [args_config args_project_root args_enable_deployment].
  destruct config as [[|c s]|]; try (unfold ret; auto).
  unfold bind. pose proof (read_file_world (os_path (c :: s)) w) as Hw.
  destruct (read_file (os_path (c :: s)) w) as [[text|e] w'];
    cbn [snd] in Hw; subst; auto.
  destruct (json_loads text) as [v|]; simpl; auto.
  unfold lift. pose proof (update_differ v D0) as U.
  destruct (update _ v), (update _ v); auto.
Qed.

(** C9: two configurations that differ in [enable_deployment] only make
    generators that keep them as they are, have the same project root and
    output directory, and get equal documents in both versions. *)
Theorem C9_enable_deployment_is_inert (c1 c2 : pydict)
    (g1 g2 : SuiCIGenerator) :
  differ_only_in (KStr (u "enable_deployment")) c1 c2 ->
  __init__ c1 = Ok g1 ->
  __init__ c2 = Ok g2 ->
  config g1 = c1 /\ config g2 = c2 /\
  project_root g1 = project_root g2 /\
  workflow_dir g1 = workflow_dir g2 /\
  Staged.generate_workflow g1 = Staged.generate_workflow g2 /\
  Single.generate_workflow g1 = Single.generate_workflow g2.
Proof.
  intros D I1 I2. pose proof (init_differ D) as I.
  rewrite I1, I2 in I. destruct I as [A [B [C E]]].
  repeat split; auto.
Qed.

Lemma C9_enable_deployment_is_inert_witness :
  Staged.generate_workflow default_generator
    = Staged.generate_workflow
        (mkGenerator (dict_set default_config (KStr (u "enable_deployment")) (PBool true))
           (Path_of (u ".")) (Path_of (u ".") // ".github" // "workflows")%path).
Proof.
  apply (@C9_enable_deployment_is_inert default_config
           (dict_set default_config (KStr (u "enable_deployment")) (PBool true))).
  - intros k' H. rewrite dict_get_set, H. reflexivity.
  - reflexivity.
  - reflexivity.
Defined.

(** The flag [--enable-deployment] changes nothing of what [main] does, in
    both versions: the result and the world after the run are the same with
    and without it. *)
Lemma enable_deployment_flag_is_inert json_loads (config : option pystr)
    (project : pystr) (b1 b2 : bool) (w : world) :
  main_staged json_loads (mkArgs config project b1) w
    = main_staged json_loads (mkArgs config project b2) w /\
  main_single json_loads (mkArgs config project b1) w
    = main_single json_loads (mkArgs config project b2) w.
Proof.
  assert (G : forall gw : SuiCIGenerator -> pyval,
             (forall g1 g2, gw g1 = gw g2) ->
             main json_loads gw (mkArgs config project b1) w
             = main json_loads gw (mkArgs config project b2) w).
  { intros gw G. unfold main, bind, lift.
    pose proof (build_config_differ json_loads config project b1 b2 w) as B.
    destruct (build_config json_loads (mkArgs config project b1) w) as [[c1|e1] w1],
             (build_config json_loads (mkArgs config project b2) w) as [[c2|e2] w2];
      try contradiction.
    - destruct B as [D [-> ->]]. pose proof (init_differ D) as I.
      destruct (__init__ c1) as [g1|x1], (__init__ c2) as [g2|x2]; try contradiction.
      + destruct I as [_ [_ [_ Wd]]]. unfold save_workflow, bind.
        now rewrite Wd, (G g1 g2).
      + now subst.
    - now destruct B as [-> [-> ->]]. }
  split; apply G; reflexivity.
Qed.

(** C3: the deploy job of the four-job version has the guard of a push to
    the main branch as its [if] field, so its steps only run under it; in
    the one-job version each of the three deployment steps has the guard as
    its own [if] field.  The text written for the document holds the guard
    as it stands, in both versions: it is the whole value of an [if] key, on
    one line. *)
Theorem C3_deploy_is_guarded (self : SuiCIGenerator) :
  (exists deploy,
     stage (Staged.generate_workflow self) "deploy" = Some deploy /\
     item deploy "if" = Some (str deploy_guard) /\
     steps deploy <> []) /\
  (forall name,
     In name ["Setup Sui CLI config and Deploy"; "Deploy to testnet";
              "Verify deployment"] ->
     exists s, step (Single.generate_env_setup self) name = Some s /\
               item s "if" = Some (str deploy_guard)) /\
  occurs deploy_guard (safe_dump (Staged.generate_workflow self)) = true /\
  occurs deploy_guard (safe_dump (Single.generate_workflow self)) = true /\
  occurs (nl ++ "    if: " ++ deploy_guard ++ nl)
    (safe_dump (Staged.generate_workflow self)) = true /\
  occurs (nl ++ "      if: " ++ deploy_guard ++ nl)
    (safe_dump (Single.generate_workflow self)) = true.
Proof.
  split; [|split; [|split; [|split; [|split]]]].
  - eexists. split; [by_computation|].
    split; [by_computation | vm_compute; discriminate].
  - intros name [<-|[<-|[<-|[]]]]; eexists; (split; by_computation).
  - by_computation.
  - by_computation.
  - by_computation.
  - by_computation.
Qed.

Lemma C4_save_workflow_witness :
  workflow_dir default_generator
    = (project_root default_generator // ".github" // "workflows")%path /\
  exists w',
    save_workflow default_generator (Staged.generate_workflow default_generator)
      sample_world = (Ok tt, w').
Proof.
  destruct (@C4_save_workflow default_config default_generator
              (Staged.generate_workflow default_generator) sample_world eq_refl)
    as [A [_ [_ [Make _]]]].
  split; [exact A|].
  eapply (Make [] (u ".github") [u "workflows"]).
  - reflexivity.
  - reflexivity.
  - repeat constructor.
  - reflexivity.
  - vm_compute. reflexivity.
  - reflexivity.
Defined.

(** ** The programs on the sample world *)

(** The probe on a populated project, on an empty one and on a project
    root that does not exist. *)
Example detect_on_samples :
  fst (detect_project_structure
         (mkGenerator [] (Path_of (u "contracts")) (Path_of (u "contracts")))
         sample_world)
    = Ok (dict [("has_move_toml", PBool true); ("has_tests", PBool true);
                ("has_sources", PBool true)]) /\
  fst (detect_project_structure
         (mkGenerator [] (Path_of (u "demo")) (Path_of (u "demo"))) sample_world)
    = Ok (dict [("has_move_toml", PBool false); ("has_tests", PBool false);
                ("has_sources", PBool false)]) /\
  fst (detect_project_structure
         (mkGenerator [] (Path_of (u "/no/such/dir")) (Path_of (u "x")))
         sample_world)
    = Ok (dict [("has_move_toml", PBool false); ("has_tests", PBool false);
                ("has_sources", PBool false)]).
Proof. repeat split; by_computation. Qed.

(** At the limits: a project root of 255 bytes that does not exist gives
    false flags; with a name of 256 bytes the probe and the saving raise. *)
Example limits_on_samples :
  fst (detect_project_structure (generator_at (repeat 97%N 255)) sample_world)
    = Ok (dict [("has_move_toml", PBool false); ("has_tests", PBool false);
                ("has_sources", PBool false)]) /\
  fst (detect_project_structure (generator_at (u "demo" ++ 47%N :: long_name))
         sample_world) = Raise OSError /\
  save_workflow (generator_at long_name) (str "x") sample_world
    = (Raise OSError, sample_world).
Proof. repeat split; by_computation. Qed.

(** A run on the empty project makes the directories and the file; a
    second run returns too and leaves the file with the same text. *)
Example main_on_empty_project :
  let run := main_staged sample_loads (sample_args None "demo" false) in
  let file := Path_of (u "/demo/.github/workflows/sui-ci.yml") in
  let text := safe_dump (Staged.generate_workflow default_generator) in
  let w1 := snd (run sample_world) in
  let w2 := snd (run w1) in
  fst (run sample_world) = Ok tt /\
  fst (read_file file w1) = Ok text /\
  fst (run w1) = Ok tt /\
  fst (read_file file w2) = Ok text.
Proof.
  intros run file text w1 w2.
  assert (same : forall r : result string,
             match r with Ok s => String.eqb s text | Raise _ => false end = true ->
             r = Ok text).
  { intros [s|e] H; [apply String.eqb_eq in H; now subst | discriminate]. }
  split; [vm_compute; reflexivity|].
  split; [apply same; vm_compute; reflexivity|].
  split; [vm_compute; reflexivity|].
  apply same; vm_compute; reflexivity.
Qed.

(** What the resolver and the emitter do on small values. *)
Example resolve_plain_samples :
  map (fun s => Yaml.resolve_plain (u s))
      ["on"; "1"; "main"; "1.5"; "2024-01-02"; "null"; "info"; "<<"]
  = [Yaml.TagBool; Yaml.TagInt; Yaml.TagStr; Yaml.TagFloat; Yaml.TagTimestamp;
     Yaml.TagNull; Yaml.TagStr; Yaml.TagMerge].
Proof. vm_compute. reflexivity. Qed.

Example safe_dump_sample :
  safe_dump (dict [
    ("on", dict [("push", dict [("branches", PList [str "main"; str "develop"])])]);
    ("env", dict [("RUST_BACKTRACE", str "1"); ("SUI_LOG_LEVEL", str "info")]);
    ("steps", PList [dict [("name", str "Checkout code");
                           ("if", str deploy_guard)];
                     PList []])])
  = "'on':
  push:
    branches:
    - main
    - develop
env:
  RUST_BACKTRACE: '1'
  SUI_LOG_LEVEL: info
steps:
- name: Checkout code
  if: github.ref == 'refs/heads/main' && github.event_name == 'push'
- []
".
Proof. vm_compute. reflexivity. Qed.
